(** * Stage coordinates to log window

    A shallow embedding of [NKI_get_stage_coordinates_to_log_window.py], a
    Jython script for Fiji.  The script opens an image file through the
    Bio-Formats [ImageReader], lets the reader fill an OME-XML metadata store,
    closes the reader, reads the stage position of plane 0 of every series
    from the store and prints the values to the ImageJ log window.

    The Bio-Formats reader, the metadata store and the log window are
    collaborators of the script.  They are modelled as a [World] that the
    script threads through its calls; a call may raise an [Exception], which
    ends the script (the script has no [try]).  Every call to a collaborator
    is also appended to a [trace], so that the order of the calls can be
    stated. *)

From Stdlib Require Import ZArith String List Bool Lia.
From Stdlib Require Import Floats.PrimFloat Floats.SpecFloat Floats.FloatOps.
From Stdlib Require Import DecimalString.
Import ListNotations.

Open Scope string_scope.
Open Scope list_scope.
Open Scope Z_scope.

(** ** Exceptions and collaborator calls *)

Inductive Exception : Type :=
| IOException (path : string)
    (* [reader.setId(file)]: the file cannot be opened *)
| IllegalStateException
    (* a reader method that needs a current file, called without one *)
| IndexOutOfBoundsException (index size : Z)
    (* [java.util.List.get] inside the metadata store *)
| AttributeError
    (* [.value()] on [None], the Jython view of a Java [null] *)
| IndexError.
    (* a Python list subscript out of range *)

Inductive Event : Type :=
| CallOptionsSetId (path : string)
| CallSetMetadataStore
| CallReaderSetId (path : string)
| CallGetSeriesCount
| CallReaderClose
| CallGetPlanePositionX (series plane : Z)
| CallGetPlanePositionY (series plane : Z)
| CallLog (line : string).

Definition is_position_read (e : Event) : bool :=
  match e with
  | CallGetPlanePositionX _ _ | CallGetPlanePositionY _ _ => true
  | _ => false
  end.

(** A read of a stage position on plane 0. *)
Definition reads_plane_0 (e : Event) : bool :=
  match e with
  | CallGetPlanePositionX _ p | CallGetPlanePositionY _ p => p =? 0
  | _ => false
  end.

Definition is_log (e : Event) : bool :=
  match e with
  | CallLog _ => true
  | _ => false
  end.

(** The reader handle as the calls of a trace leave it: [setId] acquires it,
    [close] releases it. *)
Fixpoint handle_open_from (open : bool) (tr : list Event) : bool :=
  match tr with
  | [] => open
  | CallReaderSetId _ :: tr' => handle_open_from true tr'
  | CallReaderClose :: tr' => handle_open_from false tr'
  | _ :: tr' => handle_open_from open tr'
  end.

Definition handle_open (tr : list Event) : bool := handle_open_from false tr.

(** ** Python lists *)

(** [range(n)]: the integers [0 .. n-1], empty when [n <= 0]. *)
Definition range (n : Z) : list Z := map Z.of_nat (seq 0 (Z.to_nat n)).

(** [l[i]]: a negative index counts from the end. *)
Definition py_getitem {A : Type} (l : list A) (i : Z) : Exception + A :=
  let len := Z.of_nat (length l) in
  let j := if i <? 0 then i + len else i in
  if (j <? 0) || (len <=? j) then inl IndexError
  else match nth_error l (Z.to_nat j) with
       | Some a => inr a
       | None => inl IndexError
       end.

(** [java.util.List.get(i)]. *)
Definition java_get {A : Type} (l : list A) (i : Z) : Exception + A :=
  let size := Z.of_nat (length l) in
  if (i <? 0) || (size <=? i) then inl (IndexOutOfBoundsException i size)
  else match nth_error l (Z.to_nat i) with
       | Some a => inr a
       | None => inl (IndexOutOfBoundsException i size)
       end.

Section Reporter.

(** The numeric type behind [Length.value()] and Python's [str] on it. *)
Context {Number : Type} (str : Number -> string).

(** ** The OME metadata store *)

Record Length : Type := mkLength
  { value : Number;
    lengthUnit : string }.

Record Plane : Type := mkPlane
  { PositionX : option Length;
    PositionY : option Length }.

Record Image : Type := mkImage
  { planes : list Plane }.

(** What the reader finds in a file it can open: its series count and the
    images it writes into the metadata store. *)
Record ImageFile : Type := mkImageFile
  { coreSeriesCount : Z;
    fileImages : list Image }.

(** [root.getImage(i).getPixels().getPlane(p).getPositionX()]; the result is
    [None] when the plane has no such attribute. *)
Definition getPlanePositionX (store : list Image) (i p : Z)
  : Exception + option Length :=
  match java_get store i with
  | inl e => inl e
  | inr img =>
      match java_get (planes img) p with
      | inl e => inl e
      | inr pl => inr (PositionX pl)
      end
  end.

Definition getPlanePositionY (store : list Image) (i p : Z)
  : Exception + option Length :=
  match java_get store i with
  | inl e => inl e
  | inr img =>
      match java_get (planes img) p with
      | inl e => inl e
      | inr pl => inr (PositionY pl)
      end
  end.

(** [.value()] on what an accessor returned. *)
Definition Length_value (o : option Length) : Exception + Number :=
  match o with
  | None => inl AttributeError
  | Some l => inr (value l)
  end.

(** ** The world of the script *)

Record World : Type := mkWorld
  { files : string -> option ImageFile;  (* the files the reader can open *)
    reader_file : option ImageFile;      (* the reader's current file *)
    store_bound : bool;                  (* [setMetadataStore(omeMeta)] done *)
    omeMeta : list Image;                (* the images of the store *)
    trace : list Event;                  (* the calls made so far *)
    log_window : list string }.          (* the lines of the log window *)

Definition initial (fs : string -> option ImageFile) : World :=
  {| files := fs; reader_file := None; store_bound := false;
     omeMeta := []; trace := []; log_window := [] |}.

Definition record_call (e : Event) (w : World) : World :=
  {| files := files w; reader_file := reader_file w;
     store_bound := store_bound w; omeMeta := omeMeta w;
     trace := trace w ++ [e]; log_window := log_window w |}.

Definition bind_store (w : World) : World :=
  {| files := files w; reader_file := reader_file w;
     store_bound := true; omeMeta := omeMeta w;
     trace := trace w; log_window := log_window w |}.

Definition open_file (f : ImageFile) (w : World) : World :=
  {| files := files w; reader_file := Some f;
     store_bound := store_bound w;
     omeMeta := if store_bound w then fileImages f else omeMeta w;
     trace := trace w; log_window := log_window w |}.

Definition release (w : World) : World :=
  {| files := files w; reader_file := None;
     store_bound := store_bound w; omeMeta := omeMeta w;
     trace := trace w; log_window := log_window w |}.

Definition append_line (s : string) (w : World) : World :=
  {| files := files w; reader_file := reader_file w;
     store_bound := store_bound w; omeMeta := omeMeta w;
     trace := trace w; log_window := log_window w ++ [s] |}.

(** ** A state and exception monad *)

Definition M (A : Type) : Type := World -> (Exception + A) * World.

Definition ret {A : Type} (a : A) : M A := fun w => (inr a, w).

Definition bind {A B : Type} (c : M A) (k : A -> M B) : M B :=
  fun w =>
    match c w with
    | (inl e, w') => (inl e, w')
    | (inr a, w') => k a w'
    end.

Definition lift {A : Type} (r : Exception + A) : M A := fun w => (r, w).

Notation "x <- c ;; k" := (bind c (fun x => k))
  (at level 100, c at next level, right associativity).
Notation "c ;; k" := (bind c (fun _ => k))
  (at level 100, right associativity).

(** A call to a collaborator: it enters the trace, then runs. *)
Definition call {A : Type} (e : Event) (body : M A) : M A :=
  fun w => body (record_call e w).

(** ** The collaborators *)

(** [options.setId(file)] stores the path in the importer options. *)
Definition ImporterOptions_setId (path : string) : M unit :=
  call (CallOptionsSetId path) (ret tt).

Definition reader_setMetadataStore : M unit :=
  call CallSetMetadataStore (fun w => (inr tt, bind_store w)).

(** [reader.setId(file)] opens the file and fills the bound store. *)
Definition reader_setId (path : string) : M unit :=
  call (CallReaderSetId path)
    (fun w =>
       match files w path with
       | None => (inl (IOException path), w)
       | Some f => (inr tt, open_file f w)
       end).

Definition reader_getSeriesCount : M Z :=
  call CallGetSeriesCount
    (fun w =>
       match reader_file w with
       | None => (inl IllegalStateException, w)
       | Some f => (inr (coreSeriesCount f), w)
       end).

Definition reader_close : M unit :=
  call CallReaderClose (fun w => (inr tt, release w)).

Definition omeMeta_getPlanePositionX (i p : Z) : M (option Length) :=
  call (CallGetPlanePositionX i p)
    (fun w => (getPlanePositionX (omeMeta w) i p, w)).

Definition omeMeta_getPlanePositionY (i p : Z) : M (option Length) :=
  call (CallGetPlanePositionY i p)
    (fun w => (getPlanePositionY (omeMeta w) i p, w)).

Definition IJ_log (s : string) : M unit :=
  call (CallLog s) (fun w => (inr tt, append_line s w)).

(** ** Python control structures *)

(** [[f(a) for a in l]] *)
Fixpoint comprehension {A B : Type} (f : A -> M B) (l : list A)
  : M (list B) :=
  match l with
  | [] => ret []
  | a :: l' =>
      b <- f a ;;
      bs <- comprehension f l' ;;
      ret (b :: bs)
  end.

(** [for a in l: body(a)] *)
Fixpoint for_in {A : Type} (l : list A) (body : A -> M unit) : M unit :=
  match l with
  | [] => ret tt
  | a :: l' => body a ;; for_in l' body
  end.

(** ** The script *)

(** Lines 9-23, under the comment [# parse metadata]: the value of
    [seriesCount] once the reader is closed. *)
Definition parse_metadata (file : string) (nrTiles : Z) : M Z :=
  ImporterOptions_setId file ;;
  reader_setMetadataStore ;;
  reader_setId file ;;
  seriesCount <- reader_getSeriesCount ;;
  let seriesCount := if negb (nrTiles =? -1) then nrTiles else seriesCount in
  reader_close ;;
  ret seriesCount.

(** Lines 24-30: the two comprehensions and the logging loop. *)
Definition log_positions (seriesCount : Z) : M unit :=
  posX <- comprehension
            (fun i => l <- omeMeta_getPlanePositionX i 0 ;;
                      lift (Length_value l))
            (range seriesCount) ;;
  posY <- comprehension
            (fun i => l <- omeMeta_getPlanePositionY i 0 ;;
                      lift (Length_value l))
            (range seriesCount) ;;
  for_in (range seriesCount)
    (fun i =>
       x <- lift (py_getitem posX i) ;;
       IJ_log (str x) ;;
       y <- lift (py_getitem posY i) ;;
       IJ_log (str y)).

Definition script (file : string) (nrTiles : Z) : M unit :=
  seriesCount <- parse_metadata file nrTiles ;;
  log_positions seriesCount.

(** The script started in a fresh session. *)
Definition run (fs : string -> option ImageFile) (file : string)
    (nrTiles : Z) : (Exception + unit) * World :=
  script file nrTiles (initial fs).

(** ** Vocabulary of the statements *)

(** [seriesCount] as lines 17-22 leave it. *)
Definition effective_count (f : ImageFile) (nrTiles : Z) : Z :=
  if nrTiles =? -1 then coreSeriesCount f else nrTiles.

(** One element of a comprehension: the accessor on plane 0, then [.value()]. *)
Definition positionX_value (store : list Image) (i : Z) : Exception + Number :=
  match getPlanePositionX store i 0 with
  | inl e => inl e
  | inr o => Length_value o
  end.

Definition positionY_value (store : list Image) (i : Z) : Exception + Number :=
  match getPlanePositionY store i 0 with
  | inl e => inl e
  | inr o => Length_value o
  end.

(** A comprehension over a function without effects: its outcome and the
    elements it got to, the failing one included. *)
Fixpoint attempt {A B : Type} (g : A -> Exception + B) (l : list A)
  : (Exception + list B) * list A :=
  match l with
  | [] => (inr [], [])
  | a :: l' =>
      match g a with
      | inl e => (inl e, [a])
      | inr b =>
          match attempt g l' with
          | (inl e, done) => (inl e, a :: done)
          | (inr bs, done) => (inr (b :: bs), a :: done)
          end
      end
  end.

(** The world after more calls, and after lines were logged. *)
Definition record_calls (es : list Event) (w : World) : World :=
  {| files := files w; reader_file := reader_file w;
     store_bound := store_bound w; omeMeta := omeMeta w;
     trace := trace w ++ es; log_window := log_window w |}.

Definition logged (lines : list string) (w : World) : World :=
  {| files := files w; reader_file := reader_file w;
     store_bound := store_bound w; omeMeta := omeMeta w;
     trace := trace w ++ map CallLog lines;
     log_window := log_window w ++ lines |}.

(** The lines of the logging loop for the lists [posX] and [posY]. *)
Definition position_lines (ps : list (Number * Number)) : list string :=
  flat_map (fun p => [str (fst p); str (snd p)]) ps.

(** The calls of lines 9-23 on a file that opens, and the world they leave. *)
Definition parse_calls (file : string) : list Event :=
  [CallOptionsSetId file; CallSetMetadataStore; CallReaderSetId file;
   CallGetSeriesCount; CallReaderClose].

Definition parsed (fs : string -> option ImageFile) (file : string)
    (f : ImageFile) : World :=
  {| files := fs; reader_file := None; store_bound := true;
     omeMeta := fileImages f; trace := parse_calls file;
     log_window := [] |}.

(** The world an open failure leaves. *)
Definition open_failed (fs : string -> option ImageFile) (file : string)
  : World :=
  {| files := fs; reader_file := None; store_bound := true;
     omeMeta := [];
     trace := [CallOptionsSetId file; CallSetMetadataStore;
               CallReaderSetId file];
     log_window := [] |}.

(** The stage position that plane 0 of an image records, when it records
    both coordinates. *)
Definition plane0_position (img : Image) : option (Number * Number) :=
  match planes img with
  | pl :: _ =>
      match PositionX pl, PositionY pl with
      | Some lx, Some ly => Some (value lx, value ly)
      | _, _ => None
      end
  | [] => None
  end.

Fixpoint positions (store : list Image) : option (list (Number * Number)) :=
  match store with
  | [] => Some []
  | img :: rest =>
      match plane0_position img, positions rest with
      | Some p, Some ps => Some (p :: ps)
      | _, _ => None
      end
  end.

(** A file with [N] series whose store holds positions for the [N] series:
    the reader counts as many series as the store has images, and every
    image records its position.  [N] is the length of the result. *)
Definition series_positions (f : ImageFile)
  : option (list (Number * Number)) :=
  if coreSeriesCount f =? Z.of_nat (length (fileImages f))
  then positions (fileImages f)
  else None.

End Reporter.

Arguments Length : clear implicits.
Arguments Plane : clear implicits.
Arguments Image : clear implicits.
Arguments ImageFile : clear implicits.
Arguments World : clear implicits.
Arguments M : clear implicits.

(** ** Example files *)

(** Python's [str] on a [float] that holds a whole number below [10^12]: its
    decimal digits, then [.0].  The examples use no other float; those are
    written [?]. *)
Definition str_whole (x : float) : string :=
  match Prim2SF x with
  | S754_zero s => if s then "-0.0" else "0.0"
  | S754_finite s m e =>
      let d := 2 ^ (- e) in
      if (e <? 0) && (Z.pos m mod d =? 0) && (Z.pos m / d <? 10 ^ 12) then
        ((if s then "-" else "") ++
         NilZero.string_of_uint (N.to_uint (Z.to_N (Z.pos m / d))) ++
         ".0")%string
      else "?"
  | _ => "?"
  end.

Definition micrometre (x : float) : option (Length float) :=
  Some (mkLength x "um").

(** Three series of two planes each; plane 1 is displaced from plane 0. *)
Definition three_tiles : ImageFile float :=
  mkImageFile 3
    [mkImage [mkPlane (micrometre 1) (micrometre 2);
              mkPlane (micrometre 1.5) (micrometre 2.5)];
     mkImage [mkPlane (micrometre 3) (micrometre 4);
              mkPlane (micrometre 3.5) (micrometre 4.5)];
     mkImage [mkPlane (micrometre 5) (micrometre 6);
              mkPlane (micrometre 5.5) (micrometre 6.5)]].

(** Two series; the second one has no stage position. *)
Definition unpositioned_tile : ImageFile float :=
  mkImageFile 2
    [mkImage [mkPlane (micrometre 1) (micrometre 2)];
     mkImage [mkPlane None None]].

Definition disk (path : string) : option (ImageFile float) :=
  if String.eqb path "tiles.czi" then Some three_tiles
  else if String.eqb path "bare.czi" then Some unpositioned_tile
  else None.

(** The positions of [three_tiles] in millimetres, one plane per series. *)
Definition millimetre (x : float) : option (Length float) :=
  Some (mkLength x "mm").

Definition three_tiles_mm : ImageFile float :=
  mkImageFile 3
    [mkImage [mkPlane (millimetre 1) (millimetre 2)];
     mkImage [mkPlane (millimetre 3) (millimetre 4)];
     mkImage [mkPlane (millimetre 5) (millimetre 6)]].

(** Two series; the second one has no Y position. *)
Definition tile_without_Y : ImageFile float :=
  mkImageFile 2
    [mkImage [mkPlane (micrometre 1) (micrometre 2)];
     mkImage [mkPlane (micrometre 3) None]].

(** Two series; the second one has no plane. *)
Definition tile_without_planes : ImageFile float :=
  mkImageFile 2
    [mkImage [mkPlane (micrometre 1) (micrometre 2)];
     mkImage []].

Definition archive (path : string) : option (ImageFile float) :=
  if String.eqb path "mm.czi" then Some three_tiles_mm
  else if String.eqb path "noY.czi" then Some tile_without_Y
  else if String.eqb path "noplanes.czi" then Some tile_without_planes
  else disk path.

(** * Properties *)

Section Facts.

Context {Number : Type} (str : Number -> string).

(** ** Worlds *)

Lemma record_calls_nil (w : World Number) : record_calls [] w = w.
Proof.
  destruct w; unfold record_calls; simpl. now rewrite app_nil_r.
Qed.

Lemma record_calls_app (es1 es2 : list Event) (w : World Number) :
  record_calls es2 (record_calls es1 w) = record_calls (es1 ++ es2) w.
Proof.
  unfold record_calls; simpl. now rewrite app_assoc.
Qed.

Lemma logged_nil (w : World Number) : logged [] w = w.
Proof.
  destruct w; unfold logged; simpl. now rewrite !app_nil_r.
Qed.

Lemma logged_app (l1 l2 : list string) (w : World Number) :
  logged l2 (logged l1 w) = logged (l1 ++ l2) w.
Proof.
  unfold logged; simpl. now rewrite map_app, !app_assoc.
Qed.

(** ** Lists *)

Lemma py_getitem_nth {A : Type} (l : list A) (k : nat) (a : A) :
  nth_error l k = Some a -> py_getitem l (Z.of_nat k) = inr a.
Proof.
  intros H. unfold py_getitem; cbv zeta.
  assert (Hk : (k < length l)%nat) by (apply nth_error_Some; congruence).
  destruct (Z.of_nat k <? 0) eqn:Hneg; [apply Z.ltb_lt in Hneg; lia|].
  rewrite Hneg.
  replace (Z.of_nat (length l) <=? Z.of_nat k) with false
    by (symmetry; apply Z.leb_gt; lia).
  simpl. now rewrite Nat2Z.id, H.
Qed.

Lemma java_get_nth {A : Type} (l : list A) (k : nat) (a : A) :
  nth_error l k = Some a -> java_get l (Z.of_nat k) = inr a.
Proof.
  intros H. unfold java_get.
  assert (Hk : (k < length l)%nat) by (apply nth_error_Some; congruence).
  replace (Z.of_nat k <? 0) with false by (symmetry; apply Z.ltb_ge; lia).
  replace (Z.of_nat (length l) <=? Z.of_nat k) with false
    by (symmetry; apply Z.leb_gt; lia).
  simpl. now rewrite Nat2Z.id, H.
Qed.

Lemma java_get_beyond {A : Type} (l : list A) (i : Z) :
  Z.of_nat (length l) <= i ->
  java_get l i = inl (IndexOutOfBoundsException i (Z.of_nat (length l))).
Proof.
  intros H. unfold java_get.
  replace (Z.of_nat (length l) <=? i) with true
    by (symmetry; apply Z.leb_le; lia).
  now rewrite orb_true_r.
Qed.

Lemma java_get_inr {A : Type} (l : list A) (i : Z) (a : A) :
  java_get l i = inr a ->
  0 <= i < Z.of_nat (length l) /\ nth_error l (Z.to_nat i) = Some a.
Proof.
  unfold java_get.
  destruct (i <? 0) eqn:Hneg; simpl; [discriminate|].
  destruct (Z.of_nat (length l) <=? i) eqn:Hbig; [discriminate|].
  apply Z.ltb_ge in Hneg. apply Z.leb_gt in Hbig.
  destruct (nth_error l (Z.to_nat i)) eqn:Hn; [|discriminate].
  intros [= ->]. split; [lia | reflexivity].
Qed.

Lemma skipn_nth {A : Type} (l : list A) (k : nat) (a : A) :
  nth_error l k = Some a -> skipn k l = a :: skipn (S k) l.
Proof.
  revert l; induction k as [|k IH]; intros [|b l] H; try discriminate.
  - now injection H as ->.
  - simpl in H. rewrite skipn_cons. now apply IH.
Qed.

(** ** Comprehensions *)

Lemma comprehension_attempt
    (g : list (Image Number) -> Z -> Exception + Number) (ev : Z -> Event)
    (f : Z -> M Number Number) :
  (forall i w, f i w = (g (omeMeta w) i, record_call (ev i) w)) ->
  forall l w,
    comprehension f l w =
    (fst (attempt (g (omeMeta w)) l),
     record_calls (map ev (snd (attempt (g (omeMeta w)) l))) w).
Proof.
  intros Hf l; induction l as [|a l IH]; intros w; simpl.
  - unfold ret. now rewrite record_calls_nil.
  - unfold bind at 1. rewrite Hf.
    destruct (g (omeMeta w) a) as [e|b]; [reflexivity|].
    unfold bind. rewrite IH. simpl omeMeta.
    destruct (attempt (g (omeMeta w)) l) as [[e|bs] done]; simpl;
      unfold ret; f_equal; apply record_calls_app.
Qed.

Lemma attempt_inr {A B : Type} (g : A -> Exception + B) (l : list A)
    (bs : list B) :
  fst (attempt g l) = inr bs ->
  snd (attempt g l) = l /\ Forall2 (fun a b => g a = inr b) l bs.
Proof.
  revert bs; induction l as [|a l IH]; intros bs; simpl.
  - intros [= <-]. split; [reflexivity | constructor].
  - destruct (g a) as [e|b] eqn:Ha; [discriminate|].
    destruct (attempt g l) as [[e|bs'] done]; simpl in *; [discriminate|].
    intros [= <-]. destruct (IH bs' eq_refl) as [-> HF].
    split; [reflexivity | now constructor].
Qed.

Lemma attempt_inl {A B : Type} (g : A -> Exception + B) (l : list A)
    (e : Exception) :
  fst (attempt g l) = inl e ->
  exists pre a, snd (attempt g l) = pre ++ [a] /\ g a = inl e.
Proof.
  induction l as [|a l IH]; simpl; [discriminate|].
  destruct (g a) as [e'|b] eqn:Ha.
  - intros [= ->]. now exists [], a.
  - destruct (attempt g l) as [[e'|bs'] done]; simpl in *; [|discriminate].
    intros [= ->]. destruct (IH eq_refl) as (pre & a' & -> & Ha').
    now exists (a :: pre), a'.
Qed.

Lemma attempt_all {A B : Type} (g : A -> Exception + B) (l : list A)
    (bs : list B) :
  Forall2 (fun a b => g a = inr b) l bs -> attempt g l = (inr bs, l).
Proof.
  induction 1 as [|a b l bs Ha _ IH]; simpl; [reflexivity|].
  now rewrite Ha, IH.
Qed.

Lemma attempt_app {A B : Type} (g : A -> Exception + B) (l1 l2 : list A)
    (bs : list B) :
  Forall2 (fun a b => g a = inr b) l1 bs ->
  attempt g (l1 ++ l2) =
  match attempt g l2 with
  | (inl e, done) => (inl e, l1 ++ done)
  | (inr bs', done) => (inr (bs ++ bs'), l1 ++ done)
  end.
Proof.
  induction 1 as [|a b l bs Ha _ IH]; simpl.
  - now destruct (attempt g l2) as [[e|bs'] done].
  - rewrite Ha, IH. now destruct (attempt g l2) as [[e|bs'] done].
Qed.

(** ** The logging loop *)

Lemma for_in_logs (body : Z -> M Number unit) (ps : list (Number * Number)) :
  (forall k p w,
      nth_error ps k = Some p ->
      body (Z.of_nat k) w = (inr tt, logged [str (fst p); str (snd p)] w)) ->
  forall (m k : nat) (w : World Number),
    (k + m <= length ps)%nat ->
    for_in (map Z.of_nat (seq k m)) body w =
    (inr tt, logged (position_lines str (firstn m (skipn k ps))) w).
Proof.
  intros Hbody m; induction m as [|m IH]; intros k w Hk; simpl.
  - unfold ret. now rewrite logged_nil.
  - destruct (nth_error ps k) as [p|] eqn:Hp;
      [|apply nth_error_None in Hp; lia].
    unfold bind. rewrite (Hbody k p w Hp), IH by lia.
    rewrite logged_app, (skipn_nth ps k p Hp). reflexivity.
Qed.

Lemma log_pair (ps : list (Number * Number)) (k : nat) (p : Number * Number)
    (w : World Number) :
  nth_error ps k = Some p ->
  bind (lift (py_getitem (map fst ps) (Z.of_nat k))) (fun x =>
  bind (IJ_log (str x)) (fun _ =>
  bind (lift (py_getitem (map snd ps) (Z.of_nat k))) (fun y =>
  IJ_log (str y)))) w =
  (inr tt, logged [str (fst p); str (snd p)] w).
Proof.
  intros Hp.
  assert (Hx : py_getitem (map fst ps) (Z.of_nat k) = inr (fst p))
    by (apply py_getitem_nth; rewrite nth_error_map, Hp; reflexivity).
  assert (Hy : py_getitem (map snd ps) (Z.of_nat k) = inr (snd p))
    by (apply py_getitem_nth; rewrite nth_error_map, Hp; reflexivity).
  unfold bind, lift, IJ_log, call. rewrite Hx, Hy.
  unfold logged, append_line, record_call; simpl.
  now rewrite <- !app_assoc.
Qed.

Lemma logging_loop (ps : list (Number * Number)) (w : World Number) :
  for_in (map Z.of_nat (seq 0 (length ps)))
    (fun i =>
       bind (lift (py_getitem (map fst ps) i)) (fun x =>
       bind (IJ_log (str x)) (fun _ =>
       bind (lift (py_getitem (map snd ps) i)) (fun y =>
       IJ_log (str y))))) w =
  (inr tt, logged (position_lines str ps) w).
Proof.
  rewrite (for_in_logs _ ps) by (intros; now apply log_pair || lia).
  now rewrite skipn_O, firstn_all.
Qed.

(** ** The two halves of the script *)

Lemma Forall2_same_length {A B : Type} (R : A -> B -> Prop) (l : list A)
    (l' : list B) :
  Forall2 R l l' -> length l = length l'.
Proof.
  induction 1; simpl; congruence.
Qed.

Lemma map_fst_combine {A B : Type} (l : list A) (l' : list B) :
  length l = length l' -> map fst (combine l l') = l.
Proof.
  revert l'; induction l as [|a l IH]; intros [|b l'] H; simpl in *;
    try discriminate; [reflexivity|].
  now rewrite IH by congruence.
Qed.

Lemma map_snd_combine {A B : Type} (l : list A) (l' : list B) :
  length l = length l' -> map snd (combine l l') = l'.
Proof.
  revert l'; induction l as [|a l IH]; intros [|b l'] H; simpl in *;
    try discriminate; [reflexivity|].
  now rewrite IH by congruence.
Qed.

Lemma length_range (n : Z) : length (range n) = Z.to_nat n.
Proof.
  unfold range. now rewrite length_map, length_seq.
Qed.

Lemma read_X (i : Z) (w : World Number) :
  bind (omeMeta_getPlanePositionX i 0) (fun l => lift (Length_value l)) w =
  (positionX_value (omeMeta w) i, record_call (CallGetPlanePositionX i 0) w).
Proof.
  unfold bind, omeMeta_getPlanePositionX, call, lift, positionX_value.
  simpl. now destruct (getPlanePositionX (omeMeta w) i 0).
Qed.

Lemma read_Y (i : Z) (w : World Number) :
  bind (omeMeta_getPlanePositionY i 0) (fun l => lift (Length_value l)) w =
  (positionY_value (omeMeta w) i, record_call (CallGetPlanePositionY i 0) w).
Proof.
  unfold bind, omeMeta_getPlanePositionY, call, lift, positionY_value.
  simpl. now destruct (getPlanePositionY (omeMeta w) i 0).
Qed.

Lemma log_positions_spec (n : Z) (w : World Number) :
  log_positions str n w =
  match attempt (positionX_value (omeMeta w)) (range n) with
  | (inl e, doneX) =>
      (inl e, record_calls (map (fun i => CallGetPlanePositionX i 0) doneX) w)
  | (inr xs, doneX) =>
      match attempt (positionY_value (omeMeta w)) (range n) with
      | (inl e, doneY) =>
          (inl e,
           record_calls (map (fun i => CallGetPlanePositionX i 0) doneX ++
                         map (fun i => CallGetPlanePositionY i 0) doneY) w)
      | (inr ys, doneY) =>
          (inr tt,
           logged (position_lines str (combine xs ys))
             (record_calls
                (map (fun i => CallGetPlanePositionX i 0) doneX ++
                 map (fun i => CallGetPlanePositionY i 0) doneY) w))
      end
  end.
Proof.
  unfold log_positions. unfold bind at 1.
  rewrite (comprehension_attempt positionX_value
             (fun i => CallGetPlanePositionX i 0)) by apply read_X.
  destruct (attempt (positionX_value (omeMeta w)) (range n))
    as [[e|xs] doneX] eqn:HX; simpl fst; simpl snd; [reflexivity|].
  unfold bind at 1.
  rewrite (comprehension_attempt positionY_value
             (fun i => CallGetPlanePositionY i 0)) by apply read_Y.
  simpl omeMeta. rewrite record_calls_app.
  destruct (attempt (positionY_value (omeMeta w)) (range n))
    as [[e|ys] doneY] eqn:HY; simpl fst; simpl snd; [reflexivity|].
  destruct (attempt_inr _ _ xs (f_equal fst HX)) as [_ FX].
  destruct (attempt_inr _ _ ys (f_equal fst HY)) as [_ FY].
  apply Forall2_same_length in FX, FY. rewrite length_range in FX, FY.
  pose proof (logging_loop (combine xs ys)) as HL.
  rewrite map_fst_combine, map_snd_combine, length_combine in HL
    by congruence.
  rewrite <- FX, <- FY, Nat.min_id in HL.
  apply HL.
Qed.

Lemma parse_metadata_opens (fs : string -> option (ImageFile Number))
    (file : string) (f : ImageFile Number) (nrTiles : Z) :
  fs file = Some f ->
  parse_metadata file nrTiles (initial fs) =
  (inr (effective_count f nrTiles), parsed fs file f).
Proof.
  intros H.
  unfold parse_metadata, bind, ImporterOptions_setId, reader_setMetadataStore,
    reader_setId, reader_getSeriesCount, reader_close, call, ret.
  simpl. rewrite H. simpl. unfold effective_count.
  now destruct (nrTiles =? -1).
Qed.

Lemma parse_metadata_fails (fs : string -> option (ImageFile Number))
    (file : string) (nrTiles : Z) :
  fs file = None ->
  parse_metadata file nrTiles (initial fs) =
  (inl (IOException file), open_failed fs file).
Proof.
  intros H.
  unfold parse_metadata, bind, ImporterOptions_setId, reader_setMetadataStore,
    reader_setId, call, ret.
  simpl. now rewrite H.
Qed.

Lemma run_opens (fs : string -> option (ImageFile Number)) (file : string)
    (f : ImageFile Number) (nrTiles : Z) :
  fs file = Some f ->
  run str fs file nrTiles =
  log_positions str (effective_count f nrTiles) (parsed fs file f).
Proof.
  intros H. unfold run, script, bind.
  now rewrite (parse_metadata_opens fs file f nrTiles H).
Qed.

Lemma run_fails_to_open (fs : string -> option (ImageFile Number))
    (file : string) (nrTiles : Z) :
  fs file = None ->
  run str fs file nrTiles = (inl (IOException file), open_failed fs file).
Proof.
  intros H. unfold run, script, bind.
  now rewrite (parse_metadata_fails fs file nrTiles H).
Qed.

(** ** Stores that hold positions *)

Lemma positions_nth (store : list (Image Number))
    (ps : list (Number * Number)) :
  positions store = Some ps ->
  length ps = length store /\
  forall j p,
    nth_error ps j = Some p ->
    exists img, nth_error store j = Some img /\ plane0_position img = Some p.
Proof.
  revert ps; induction store as [|img store IH]; intros ps; simpl.
  - intros [= <-]. split; [reflexivity|]. intros [|j] p; discriminate.
  - destruct (plane0_position img) as [p0|] eqn:H0; [|discriminate].
    destruct (positions store) as [ps'|]; [|discriminate].
    intros [= <-]. destruct (IH ps' eq_refl) as [Hlen Hnth].
    split; [simpl; congruence|].
    intros [|j] p; simpl.
    + intros [= <-]. now exists img.
    + apply Hnth.
Qed.

Lemma plane0_position_inv (img : Image Number) (p : Number * Number) :
  plane0_position img = Some p ->
  exists pl lx ly,
    nth_error (planes img) 0 = Some pl /\
    PositionX pl = Some lx /\ PositionY pl = Some ly /\
    p = (value lx, value ly).
Proof.
  unfold plane0_position.
  destruct (planes img) as [|pl rest]; [discriminate|].
  destruct (PositionX pl) as [lx|] eqn:HX; [|discriminate].
  destruct (PositionY pl) as [ly|] eqn:HY; [|discriminate].
  intros [= <-]. now exists pl, lx, ly.
Qed.

Lemma position_values (store : list (Image Number)) (j : nat)
    (img : Image Number) (p : Number * Number) :
  nth_error store j = Some img ->
  plane0_position img = Some p ->
  positionX_value store (Z.of_nat j) = inr (fst p) /\
  positionY_value store (Z.of_nat j) = inr (snd p).
Proof.
  intros Himg Hp.
  destruct (plane0_position_inv img p Hp) as (pl & lx & ly & Hpl & HX & HY & ->).
  unfold positionX_value, positionY_value, getPlanePositionX,
    getPlanePositionY.
  rewrite (java_get_nth store j img Himg).
  change 0 with (Z.of_nat 0).
  rewrite (java_get_nth (planes img) 0 pl Hpl), HX, HY.
  split; reflexivity.
Qed.

Lemma Forall2_range {B : Type} (R : Z -> B -> Prop) (bs : list B) (s : nat) :
  (forall j b, nth_error bs j = Some b -> R (Z.of_nat (s + j)) b) ->
  Forall2 R (map Z.of_nat (seq s (length bs))) bs.
Proof.
  revert s; induction bs as [|b bs IH]; intros s H; simpl; constructor.
  - specialize (H 0%nat b eq_refl). now rewrite Nat.add_0_r in H.
  - apply IH. intros j b' Hj. specialize (H (S j) b' Hj).
    now rewrite Nat.add_succ_r in H.
Qed.

Lemma reads_of_first_tiles (store : list (Image Number))
    (ps : list (Number * Number)) (k : nat) :
  positions store = Some ps ->
  (k <= length ps)%nat ->
  Forall2 (fun i x => positionX_value store i = inr x)
    (range (Z.of_nat k)) (map fst (firstn k ps)) /\
  Forall2 (fun i y => positionY_value store i = inr y)
    (range (Z.of_nat k)) (map snd (firstn k ps)).
Proof.
  intros Hps Hk. destruct (positions_nth store ps Hps) as [_ Hnth].
  assert (Hlen : length (firstn k ps) = k)
    by (rewrite length_firstn; lia).
  unfold range. rewrite Nat2Z.id.
  split.
  - rewrite <- Hlen at 1. rewrite <- (length_map fst).
    apply Forall2_range. intros j x Hj. simpl.
    rewrite nth_error_map in Hj.
    destruct (nth_error (firstn k ps) j) as [p|] eqn:Hp; [|discriminate].
    injection Hj as <-.
    rewrite nth_error_firstn in Hp.
    destruct (j <? k)%nat; [|discriminate].
    destruct (Hnth j p Hp) as (img & Himg & H0).
    apply (position_values store j img p Himg H0).
  - rewrite <- Hlen at 1. rewrite <- (length_map snd).
    apply Forall2_range. intros j y Hj. simpl.
    rewrite nth_error_map in Hj.
    destruct (nth_error (firstn k ps) j) as [p|] eqn:Hp; [|discriminate].
    injection Hj as <-.
    rewrite nth_error_firstn in Hp.
    destruct (j <? k)%nat; [|discriminate].
    destruct (Hnth j p Hp) as (img & Himg & H0).
    apply (position_values store j img p Himg H0).
Qed.

Lemma combine_fst_snd {A B : Type} (l : list (A * B)) :
  combine (map fst l) (map snd l) = l.
Proof.
  induction l as [|[a b] l IH]; simpl; congruence.
Qed.

Lemma series_positions_inv (f : ImageFile Number)
    (ps : list (Number * Number)) :
  series_positions f = Some ps ->
  positions (fileImages f) = Some ps /\
  coreSeriesCount f = Z.of_nat (length ps) /\
  length (fileImages f) = length ps.
Proof.
  unfold series_positions.
  destruct (coreSeriesCount f =? Z.of_nat (length (fileImages f))) eqn:Hc;
    [|discriminate].
  apply Z.eqb_eq in Hc. intros Hps.
  destruct (positions_nth _ _ Hps) as [Hlen _].
  repeat split; congruence.
Qed.

(** The script on the first [k] tiles of a file that holds positions. *)
Lemma run_on_first_tiles (fs : string -> option (ImageFile Number))
    (file : string) (f : ImageFile Number) (ps : list (Number * Number))
    (nrTiles : Z) (k : nat) :
  fs file = Some f ->
  series_positions f = Some ps ->
  effective_count f nrTiles = Z.of_nat k ->
  (k <= length ps)%nat ->
  run str fs file nrTiles =
  (inr tt,
   logged (position_lines str (firstn k ps))
     (record_calls
        (map (fun i => CallGetPlanePositionX i 0) (range (Z.of_nat k)) ++
         map (fun i => CallGetPlanePositionY i 0) (range (Z.of_nat k)))
        (parsed fs file f))).
Proof.
  intros Hf Hps Hn Hk.
  destruct (series_positions_inv f ps Hps) as (Hpos & _ & _).
  destruct (reads_of_first_tiles _ ps k Hpos Hk) as [FX FY].
  rewrite (run_opens fs file f nrTiles Hf), log_positions_spec, Hn.
  simpl omeMeta.
  rewrite (attempt_all _ _ _ FX), (attempt_all _ _ _ FY).
  now rewrite combine_fst_snd.
Qed.

(** ** The logged lines *)

Lemma length_position_lines (ps : list (Number * Number)) :
  length (position_lines str ps) = (2 * length ps)%nat.
Proof.
  induction ps as [|p ps IH]; simpl; [reflexivity|].
  fold (position_lines str ps). lia.
Qed.

Lemma nth_position_lines (ps : list (Number * Number)) (i : nat)
    (p : Number * Number) :
  nth_error ps i = Some p ->
  nth_error (position_lines str ps) (2 * i) = Some (str (fst p)) /\
  nth_error (position_lines str ps) (2 * i + 1) = Some (str (snd p)).
Proof.
  revert i; induction ps as [|q ps IH]; intros [|i] H; try discriminate.
  - injection H as ->. split; reflexivity.
  - replace (2 * S i)%nat with (S (S (2 * i)))%nat by lia.
    simpl in H. apply (IH i H).
Qed.

Lemma filter_reads_of_logs (lines : list string) :
  filter is_position_read (map CallLog lines) = [].
Proof.
  induction lines as [|l lines IH]; simpl; auto.
Qed.

Lemma filter_reads_of_reads (ev : Z -> Event) (l : list Z) :
  (forall i, is_position_read (ev i) = true) ->
  filter is_position_read (map ev l) = map ev l.
Proof.
  intros H; induction l as [|a l IH]; simpl; [reflexivity|].
  now rewrite H, IH.
Qed.

(** ** The calls of the second half *)

Lemma position_value_inv (store : list (Image Number)) (i : Z) :
  (forall x,
      positionX_value store i = inr x ->
      exists img pl lx,
        nth_error store (Z.to_nat i) = Some img /\
        nth_error (planes img) 0 = Some pl /\
        PositionX pl = Some lx /\ value lx = x) /\
  (forall y,
      positionY_value store i = inr y ->
      exists img pl ly,
        nth_error store (Z.to_nat i) = Some img /\
        nth_error (planes img) 0 = Some pl /\
        PositionY pl = Some ly /\ value ly = y).
Proof.
  unfold positionX_value, positionY_value, getPlanePositionX,
    getPlanePositionY.
  destruct (java_get store i) as [e|img] eqn:Himg;
    [split; intros; discriminate|].
  destruct (java_get (planes img) 0) as [e|pl] eqn:Hpl;
    [split; intros; discriminate|].
  apply java_get_inr in Himg, Hpl. destruct Himg as [_ Himg], Hpl as [_ Hpl].
  split.
  - destruct (PositionX pl) as [lx|] eqn:HX; simpl; [|discriminate].
    intros x [= <-]. now exists img, pl, lx.
  - destruct (PositionY pl) as [ly|] eqn:HY; simpl; [|discriminate].
    intros y [= <-]. now exists img, pl, ly.
Qed.

Lemma Forall_reads_plane_0 (ev : Z -> Event) (l : list Z) :
  (forall i, reads_plane_0 (ev i) = true) ->
  Forall (fun e => reads_plane_0 e = true) (map ev l).
Proof.
  intros H. apply Forall_map, Forall_forall. intros i _. apply H.
Qed.

Lemma log_positions_shape (n : Z) (w : World Number) :
  exists reads lines,
    snd (log_positions str n w) = logged lines (record_calls reads w) /\
    Forall (fun e => reads_plane_0 e = true) reads /\
    (forall e,
        fst (log_positions str n w) = inl e ->
        lines = [] /\ exists pre ev, reads = pre ++ [ev]) /\
    (fst (log_positions str n w) = inr tt ->
     length reads = (2 * Z.to_nat n)%nat).
Proof.
  rewrite log_positions_spec.
  destruct (attempt (positionX_value (omeMeta w)) (range n))
    as [[e|xs] doneX] eqn:HX.
  - exists (map (fun i => CallGetPlanePositionX i 0) doneX), [].
    rewrite logged_nil. repeat split.
    + now apply Forall_reads_plane_0.
    + destruct (attempt_inl _ _ e (f_equal fst HX)) as (pre & a & Hd & _).
      rewrite HX in Hd. simpl in Hd. subst doneX.
      rewrite map_app. simpl. eauto.
    + discriminate.
  - destruct (attempt_inr _ _ xs (f_equal fst HX)) as [HdX _].
    rewrite HX in HdX. simpl in HdX. subst doneX.
    destruct (attempt (positionY_value (omeMeta w)) (range n))
      as [[e|ys] doneY] eqn:HY.
    + exists (map (fun i => CallGetPlanePositionX i 0) (range n) ++
              map (fun i => CallGetPlanePositionY i 0) doneY), [].
      rewrite logged_nil. repeat split.
      * apply Forall_app; split; now apply Forall_reads_plane_0.
      * destruct (attempt_inl _ _ e (f_equal fst HY)) as (pre & a & Hd & _).
        rewrite HY in Hd. simpl in Hd. subst doneY.
        rewrite map_app, app_assoc. simpl. eauto.
      * discriminate.
    + destruct (attempt_inr _ _ ys (f_equal fst HY)) as [HdY _].
      rewrite HY in HdY. simpl in HdY. subst doneY.
      exists (map (fun i => CallGetPlanePositionX i 0) (range n) ++
              map (fun i => CallGetPlanePositionY i 0) (range n)),
        (position_lines str (combine xs ys)).
      repeat split.
      * apply Forall_app; split; now apply Forall_reads_plane_0.
      * discriminate.
      * discriminate.
      * rewrite length_app, !length_map, length_range. lia.
Qed.

Lemma reads_plane_0_is_read (e : Event) :
  reads_plane_0 e = true -> is_position_read e = true.
Proof.
  now destruct e.
Qed.

Lemma handle_open_from_app (b : bool) (l1 l2 : list Event) :
  handle_open_from b (l1 ++ l2) = handle_open_from (handle_open_from b l1) l2.
Proof.
  revert b; induction l1 as [|e l1 IH]; intros b; [reflexivity|].
  destruct e; simpl; apply IH.
Qed.

Lemma handle_open_from_reads_logs (b : bool) (l : list Event) :
  Forall (fun e => is_position_read e = true \/ is_log e = true) l ->
  handle_open_from b l = b.
Proof.
  induction 1 as [|e l [He|He] _ IH]; [reflexivity| |];
    destruct e; try discriminate; exact IH.
Qed.

Lemma split_past_prefix (p rest pre post : list Event) (ev : Event) :
  Forall (fun e => is_position_read e = false) p ->
  is_position_read ev = true ->
  pre ++ ev :: post = p ++ rest ->
  exists pre', pre = p ++ pre' /\ pre' ++ ev :: post = rest.
Proof.
  intros Hp Hev; revert pre; induction Hp as [|a p Ha _ IH]; intros pre H.
  - now exists pre.
  - destruct pre as [|b pre]; simpl in H; injection H as -> H.
    + congruence.
    + destruct (IH pre H) as (pre' & -> & H'). now exists pre'.
Qed.

(** Every trace of the script: the calls of the first half, then reads of
    plane 0, then the logged lines. *)
Lemma run_shape (fs : string -> option (ImageFile Number)) (file : string)
    (f : ImageFile Number) (nrTiles : Z) :
  fs file = Some f ->
  exists reads,
    trace (snd (run str fs file nrTiles)) =
      parse_calls file ++ reads ++
      map CallLog (log_window (snd (run str fs file nrTiles))) /\
    Forall (fun e => reads_plane_0 e = true) reads /\
    (forall e,
        fst (run str fs file nrTiles) = inl e ->
        log_window (snd (run str fs file nrTiles)) = [] /\
        exists pre ev, reads = pre ++ [ev]) /\
    (fst (run str fs file nrTiles) = inr tt ->
     length reads = (2 * Z.to_nat (effective_count f nrTiles))%nat).
Proof.
  intros Hf. rewrite (run_opens fs file f nrTiles Hf).
  destruct (log_positions_shape (effective_count f nrTiles) (parsed fs file f))
    as (reads & lines & Hs & Hr & Hfail & Hok).
  exists reads. rewrite Hs. simpl.
  repeat split; auto.
  - now destruct (Hfail e H).
  - now destruct (Hfail e H).
Qed.

Lemma range_split (k : Z) (n : nat) :
  (n < Z.to_nat k)%nat ->
  range k =
  range (Z.of_nat n) ++
  Z.of_nat n :: map Z.of_nat (seq (S n) (Z.to_nat k - S n)).
Proof.
  intros H. unfold range. rewrite Nat2Z.id.
  replace (Z.to_nat k) with (n + S (Z.to_nat k - S n))%nat at 1 by lia.
  now rewrite seq_app, map_app.
Qed.

Lemma nth_error_range (n : Z) (j : nat) :
  (j < Z.to_nat n)%nat -> nth_error (range n) j = Some (Z.of_nat j).
Proof.
  intros H. unfold range.
  now rewrite nth_error_map, nth_error_seq, (proj2 (Nat.ltb_lt _ _) H).
Qed.

Lemma Forall2_nth_left {A B : Type} (R : A -> B -> Prop) (l : list A)
    (l' : list B) (j : nat) (a : A) :
  Forall2 R l l' ->
  nth_error l j = Some a ->
  exists b, nth_error l' j = Some b /\ R a b.
Proof.
  intros HF; revert j; induction HF as [|x y l l' Hxy _ IH]; intros [|j] H;
    try discriminate.
  - injection H as ->. now exists y.
  - apply (IH j H).
Qed.

Lemma nth_error_combine {A B : Type} (l : list A) (l' : list B) (j : nat)
    (a : A) (b : B) :
  nth_error l j = Some a ->
  nth_error l' j = Some b ->
  nth_error (combine l l') j = Some (a, b).
Proof.
  revert l' j; induction l as [|x l IH]; intros [|y l'] [|j] Ha Hb;
    try discriminate; simpl in *.
  - congruence.
  - now apply IH.
Qed.

Lemma positionX_value_beyond (store : list (Image Number)) (i : Z) :
  Z.of_nat (length store) <= i ->
  positionX_value store i =
  inl (IndexOutOfBoundsException i (Z.of_nat (length store))).
Proof.
  intros H. unfold positionX_value, getPlanePositionX.
  now rewrite java_get_beyond.
Qed.

(** ** The properties of the specification *)

(** C1. On a file with [N] series whose metadata store holds a position for
    each of them, the script called with [nrTiles = -1] ends normally and
    logs exactly [2N] lines: for each series in ascending order the X value,
    immediately followed by the Y value. *)
Theorem default_count_logs_every_series
    (fs : string -> option (ImageFile Number)) (file : string)
    (f : ImageFile Number) (ps : list (Number * Number)) :
  fs file = Some f ->
  series_positions f = Some ps ->
  fst (run str fs file (-1)) = inr tt /\
  length (log_window (snd (run str fs file (-1)))) = (2 * length ps)%nat /\
  log_window (snd (run str fs file (-1))) =
    flat_map (fun p => [str (fst p); str (snd p)]) ps /\
  forall i p,
    nth_error ps i = Some p ->
    nth_error (log_window (snd (run str fs file (-1)))) (2 * i) =
      Some (str (fst p)) /\
    nth_error (log_window (snd (run str fs file (-1)))) (2 * i + 1) =
      Some (str (snd p)).
Proof.
  intros Hf Hps.
  destruct (series_positions_inv f ps Hps) as (_ & Hcount & _).
  rewrite (run_on_first_tiles fs file f ps (-1) (length ps) Hf Hps Hcount
             (le_n _)).
  rewrite firstn_all. simpl.
  repeat split.
  - apply length_position_lines.
  - apply (nth_position_lines ps i p H).
  - apply (nth_position_lines ps i p H).
Qed.

(** C2. Once the file is open, [seriesCount] is the reader's count when
    [nrTiles] is -1 and [nrTiles] itself otherwise, whatever the reader's
    count is; the rest of the script runs with that value. *)
Theorem seriesCount_is_count_or_override
    (fs : string -> option (ImageFile Number)) (file : string)
    (f : ImageFile Number) (nrTiles : Z) :
  fs file = Some f ->
  fst (parse_metadata file nrTiles (initial fs)) =
    inr (if nrTiles =? -1 then coreSeriesCount f else nrTiles) /\
  run str fs file nrTiles =
    log_positions str (if nrTiles =? -1 then coreSeriesCount f else nrTiles)
      (parsed fs file f).
Proof.
  intros Hf. split.
  - now rewrite (parse_metadata_opens fs file f nrTiles Hf).
  - apply (run_opens fs file f nrTiles Hf).
Qed.

(** C3. On a file with [N] series that hold positions, the script called
    with [nrTiles = k], [0 <= k <= N], ends normally and logs exactly [2k]
    lines, those of the series [0 .. k-1]; it reads the store at these
    series only. *)
Theorem override_logs_first_series
    (fs : string -> option (ImageFile Number)) (file : string)
    (f : ImageFile Number) (ps : list (Number * Number)) (k : Z) :
  fs file = Some f ->
  series_positions f = Some ps ->
  0 <= k <= Z.of_nat (length ps) ->
  fst (run str fs file k) = inr tt /\
  Z.of_nat (length (log_window (snd (run str fs file k)))) = 2 * k /\
  log_window (snd (run str fs file k)) =
    flat_map (fun p => [str (fst p); str (snd p)]) (firstn (Z.to_nat k) ps) /\
  filter is_position_read (trace (snd (run str fs file k))) =
    map (fun i => CallGetPlanePositionX i 0) (range k) ++
    map (fun i => CallGetPlanePositionY i 0) (range k).
Proof.
  intros Hf Hps Hk.
  assert (Hn : effective_count f k = Z.of_nat (Z.to_nat k)).
  { unfold effective_count.
    replace (k =? -1) with false by (symmetry; apply Z.eqb_neq; lia).
    lia. }
  rewrite (run_on_first_tiles fs file f ps k (Z.to_nat k) Hf Hps Hn)
    by lia.
  rewrite Z2Nat.id by lia.
  cbn [fst snd log_window trace logged record_calls parsed app].
  repeat split.
  - rewrite length_position_lines, length_firstn. lia.
  - rewrite !filter_app, filter_reads_of_logs, app_nil_r.
    now rewrite !filter_reads_of_reads by reflexivity.
Qed.

(** C7. When the reader cannot open the path, the script ends with the
    error of [reader.setId], its last call, and the log window is empty. *)
Theorem open_failure_logs_nothing
    (fs : string -> option (ImageFile Number)) (file : string)
    (nrTiles : Z) :
  fs file = None ->
  fst (run str fs file nrTiles) = inl (IOException file) /\
  log_window (snd (run str fs file nrTiles)) = [] /\
  trace (snd (run str fs file nrTiles)) =
    [CallOptionsSetId file; CallSetMetadataStore; CallReaderSetId file].
Proof.
  intros Hf. rewrite (run_fails_to_open fs file nrTiles Hf).
  repeat split.
Qed.

(** C10. On a file that opens, [nrTiles < -1] makes the script end normally
    with an empty log window: after [reader.close()] it makes no call at
    all, so it reads no metadata. *)
Theorem negative_override_logs_nothing
    (fs : string -> option (ImageFile Number)) (file : string)
    (f : ImageFile Number) (nrTiles : Z) :
  fs file = Some f ->
  nrTiles < -1 ->
  fst (run str fs file nrTiles) = inr tt /\
  log_window (snd (run str fs file nrTiles)) = [] /\
  trace (snd (run str fs file nrTiles)) = parse_calls file.
Proof.
  intros Hf Hneg.
  rewrite (run_opens fs file f nrTiles Hf), log_positions_spec.
  unfold effective_count.
  replace (nrTiles =? -1) with false by (symmetry; apply Z.eqb_neq; lia).
  assert (Hr : range nrTiles = []) by (destruct nrTiles; [lia|lia|reflexivity]).
  rewrite Hr. simpl. repeat split.
Qed.

Lemma read_beyond_positions (fs : string -> option (ImageFile Number))
    (file : string) (f : ImageFile Number) (ps : list (Number * Number))
    (k : Z) :
  fs file = Some f ->
  series_positions f = Some ps ->
  Z.of_nat (length ps) < k ->
  run str fs file k =
  (inl (IndexOutOfBoundsException (Z.of_nat (length ps))
          (Z.of_nat (length ps))),
   record_calls
     (map (fun i => CallGetPlanePositionX i 0) (range (Z.of_nat (length ps)))
      ++ [CallGetPlanePositionX (Z.of_nat (length ps)) 0])
     (parsed fs file f)).
Proof.
  intros Hf Hps Hk.
  destruct (series_positions_inv f ps Hps) as (Hpos & _ & Hlen).
  destruct (reads_of_first_tiles _ ps (length ps) Hpos (le_n _)) as [FX _].
  rewrite (run_opens fs file f k Hf), log_positions_spec.
  unfold effective_count.
  replace (k =? -1) with false by (symmetry; apply Z.eqb_neq; lia).
  cbn [omeMeta parsed].
  rewrite (range_split k (length ps)) by lia.
  rewrite (attempt_app _ _ _ _ FX).
  cbn [attempt].
  rewrite positionX_value_beyond by lia.
  now rewrite Hlen, map_app.
Qed.

Lemma run_beyond_store_fails (fs : string -> option (ImageFile Number))
    (file : string) (f : ImageFile Number) (k : Z) :
  fs file = Some f ->
  Z.of_nat (length (fileImages f)) < k ->
  exists e, fst (run str fs file k) = inl e.
Proof.
  intros Hf Hk.
  rewrite (run_opens fs file f k Hf), log_positions_spec.
  unfold effective_count.
  replace (k =? -1) with false by (symmetry; apply Z.eqb_neq; lia).
  cbn [omeMeta parsed].
  destruct (attempt (positionX_value (fileImages f)) (range k))
    as [[e|xs] doneX] eqn:HX; [now exists e|].
  destruct (attempt_inr _ _ xs (f_equal fst HX)) as [_ FX].
  assert (Hr : nth_error (range k) (length (fileImages f)) =
               Some (Z.of_nat (length (fileImages f))))
    by (apply nth_error_range; lia).
  destruct (Forall2_nth_left _ _ _ _ _ FX Hr) as (x & _ & Vx).
  rewrite positionX_value_beyond in Vx by lia. discriminate.
Qed.

(** C4. On a file with [N] series, the script called with [nrTiles = k],
    [k > N], ends with an error and logs nothing.  When the store holds a
    position for each of the [N] series, the error is the index-out-of-range
    error of the store, raised by the read of the X position of series [N],
    right after the reads of the series [0 .. N-1]. *)
Theorem override_beyond_count_fails
    (fs : string -> option (ImageFile Number)) (file : string)
    (f : ImageFile Number) (k : Z) :
  fs file = Some f ->
  Z.of_nat (length (fileImages f)) < k ->
  (exists e, fst (run str fs file k) = inl e) /\
  log_window (snd (run str fs file k)) = [] /\
  forall ps,
    series_positions f = Some ps ->
    fst (run str fs file k) =
      inl (IndexOutOfBoundsException (Z.of_nat (length ps))
             (Z.of_nat (length ps))) /\
    trace (snd (run str fs file k)) =
      parse_calls file ++
      map (fun i => CallGetPlanePositionX i 0)
        (range (Z.of_nat (length ps))) ++
      [CallGetPlanePositionX (Z.of_nat (length ps)) 0].
Proof.
  intros Hf Hk.
  destruct (run_beyond_store_fails fs file f k Hf Hk) as [e He].
  split; [now exists e | split].
  - destruct (run_shape fs file f k Hf) as (reads & _ & _ & Hfail & _).
    now destruct (Hfail e He).
  - intros ps Hps.
    destruct (series_positions_inv f ps Hps) as (_ & _ & Hlen).
    rewrite (read_beyond_positions fs file f ps k Hf Hps) by lia.
    split; reflexivity.
Qed.

(** C5. When the script ends normally, the two lines logged for a series
    [i] it read are the X and the Y position that plane 0 of series [i]
    records in the store; every position read of the trace is a read of
    plane 0. *)
Theorem logged_pair_is_position_of_plane_0
    (fs : string -> option (ImageFile Number)) (file : string)
    (f : ImageFile Number) (nrTiles i : Z) :
  fs file = Some f ->
  fst (run str fs file nrTiles) = inr tt ->
  0 <= i < effective_count f nrTiles ->
  Forall (fun e => is_position_read e = true -> reads_plane_0 e = true)
    (trace (snd (run str fs file nrTiles))) /\
  exists img pl lx ly,
    nth_error (fileImages f) (Z.to_nat i) = Some img /\
    nth_error (planes img) 0 = Some pl /\
    PositionX pl = Some lx /\
    PositionY pl = Some ly /\
    nth_error (log_window (snd (run str fs file nrTiles)))
      (2 * Z.to_nat i) = Some (str (value lx)) /\
    nth_error (log_window (snd (run str fs file nrTiles)))
      (2 * Z.to_nat i + 1) = Some (str (value ly)).
Proof.
  intros Hf Hok Hi. split.
  - destruct (run_shape fs file f nrTiles Hf) as (reads & -> & Hr & _).
    apply Forall_app; split; [|apply Forall_app; split].
    + repeat constructor; discriminate.
    + revert Hr. apply Forall_impl. auto.
    + apply Forall_map, Forall_forall. discriminate.
  - revert Hok. rewrite (run_opens fs file f nrTiles Hf), log_positions_spec.
    cbn [omeMeta parsed].
    destruct (attempt (positionX_value (fileImages f))
                (range (effective_count f nrTiles)))
      as [[e|xs] doneX] eqn:HX; [discriminate|].
    destruct (attempt (positionY_value (fileImages f))
                (range (effective_count f nrTiles)))
      as [[e|ys] doneY] eqn:HY; [discriminate|].
    intros _.
    destruct (attempt_inr _ _ xs (f_equal fst HX)) as [_ FX].
    destruct (attempt_inr _ _ ys (f_equal fst HY)) as [_ FY].
    assert (Hr : nth_error (range (effective_count f nrTiles)) (Z.to_nat i)
                 = Some i).
    { rewrite nth_error_range by lia. f_equal. lia. }
    destruct (Forall2_nth_left _ _ _ _ _ FX Hr) as (x & Hx & Vx).
    destruct (Forall2_nth_left _ _ _ _ _ FY Hr) as (y & Hy & Vy).
    destruct (position_value_inv (fileImages f) i) as [IX IY].
    destruct (IX x Vx) as (img & pl & lx & Himg & Hpl & HPX & <-).
    destruct (IY y Vy) as (img' & pl' & ly & Himg' & Hpl' & HPY & <-).
    assert (img' = img) by congruence; subst img'.
    assert (pl' = pl) by congruence; subst pl'.
    exists img, pl, lx, ly.
    cbn [snd log_window logged record_calls parsed app].
    pose proof (nth_position_lines (combine xs ys) (Z.to_nat i)
                  (value lx, value ly) (nth_error_combine _ _ _ _ _ Hx Hy))
      as [L1 L2].
    repeat split; assumption.
Qed.

(** C6. In every run, a read of a stage position comes after
    [reader.close()] in the trace, at a point where the reader handle is
    released. *)
Theorem reader_closed_before_position_reads
    (fs : string -> option (ImageFile Number)) (file : string)
    (nrTiles : Z) (pre post : list Event) (ev : Event) :
  trace (snd (run str fs file nrTiles)) = pre ++ ev :: post ->
  is_position_read ev = true ->
  In CallReaderClose pre /\ handle_open pre = false.
Proof.
  intros Htr Hev. destruct (fs file) as [f|] eqn:Hf.
  - destruct (run_shape fs file f nrTiles Hf) as (reads & Hs & Hr & _).
    rewrite Htr in Hs.
    assert (Hp : Forall (fun e => is_position_read e = false)
                   (parse_calls file)) by (repeat constructor).
    destruct (split_past_prefix _ _ _ _ _ Hp Hev Hs) as (pre' & -> & Hrest).
    assert (Hall : Forall (fun e => is_position_read e = true \/
                                    is_log e = true)
                     (pre' ++ ev :: post)).
    { rewrite Hrest. apply Forall_app; split.
      - revert Hr. apply Forall_impl.
        intros e He. left. now apply reads_plane_0_is_read.
      - apply Forall_map, Forall_forall. intros l _. now right. }
    apply Forall_app in Hall. destruct Hall as [Hpre _].
    split.
    + apply in_or_app. left. simpl. tauto.
    + unfold handle_open. rewrite handle_open_from_app.
      now apply handle_open_from_reads_logs.
  - rewrite (run_fails_to_open fs file nrTiles Hf) in Htr. simpl in Htr.
    destruct (split_past_prefix
                [CallOptionsSetId file; CallSetMetadataStore;
                 CallReaderSetId file] [] pre post ev) as (pre' & _ & Hrest).
    + repeat constructor.
    + assumption.
    + simpl. symmetry. exact Htr.
    + destruct pre'; discriminate.
Qed.

(** C9. A run that ends with an error has logged nothing.  The trace of a
    run is made of the calls that open and close the reader, then position
    reads, then the logged lines; when the file opened and the run fails,
    its last call is a position read; when it ends normally, all the
    [2 * seriesCount] reads were made before the first line. *)
Theorem failure_logs_nothing
    (fs : string -> option (ImageFile Number)) (file : string)
    (nrTiles : Z) :
  (forall e,
      fst (run str fs file nrTiles) = inl e ->
      log_window (snd (run str fs file nrTiles)) = []) /\
  (forall f,
      fs file = Some f ->
      exists reads,
        trace (snd (run str fs file nrTiles)) =
          parse_calls file ++ reads ++
          map CallLog (log_window (snd (run str fs file nrTiles))) /\
        Forall (fun e => is_position_read e = true) reads /\
        (forall e,
            fst (run str fs file nrTiles) = inl e ->
            exists pre ev, reads = pre ++ [ev]) /\
        (fst (run str fs file nrTiles) = inr tt ->
         length reads = (2 * Z.to_nat (effective_count f nrTiles))%nat)).
Proof.
  split.
  - intros e He. destruct (fs file) as [f|] eqn:Hf.
    + destruct (run_shape fs file f nrTiles Hf) as (reads & _ & _ & Hfail & _).
      now destruct (Hfail e He).
    + now rewrite (run_fails_to_open fs file nrTiles Hf).
  - intros f Hf.
    destruct (run_shape fs file f nrTiles Hf) as (reads & Hs & Hr & Hfail & Hok).
    exists reads. repeat split; auto.
    + revert Hr. apply Forall_impl. apply reads_plane_0_is_read.
    + intros e He. now destruct (Hfail e He).
Qed.

(** ** Failing reads *)

Lemma in_range (n i : Z) : In i (range n) <-> 0 <= i < n.
Proof.
  unfold range. rewrite in_map_iff. split.
  - intros (j & <- & Hj). apply in_seq in Hj. lia.
  - intros Hi. exists (Z.to_nat i). split; [lia|]. apply in_seq. lia.
Qed.

Lemma range_succ (j : Z) : 0 <= j -> range (j + 1) = range j ++ [j].
Proof.
  intros Hj. unfold range.
  replace (Z.to_nat (j + 1)) with (S (Z.to_nat j)) by lia.
  rewrite seq_S, map_app. simpl. now rewrite Z2Nat.id.
Qed.

Lemma Forall2_of_readable {A B : Type} (g : A -> Exception + B)
    (l : list A) :
  (forall a, In a l -> exists b, g a = inr b) ->
  exists bs, Forall2 (fun a b => g a = inr b) l bs.
Proof.
  induction l as [|a l IH]; intros H.
  - exists []. constructor.
  - destruct (H a (or_introl eq_refl)) as [b Hb].
    destruct IH as [bs Hbs]; [intros a' Ha'; apply H; now right|].
    exists (b :: bs). now constructor.
Qed.

Lemma attempt_first_failure {A B : Type} (g : A -> Exception + B)
    (l rest : list A) (a : A) (e : Exception) :
  (forall a', In a' l -> exists b, g a' = inr b) ->
  g a = inl e ->
  attempt g (l ++ a :: rest) = (inl e, l ++ [a]).
Proof.
  intros Hl Ha. destruct (Forall2_of_readable g l Hl) as [bs Hbs].
  rewrite (attempt_app g l (a :: rest) bs Hbs). simpl. now rewrite Ha.
Qed.

Lemma range_around (n j : Z) :
  0 <= j < n ->
  exists rest, range n = range j ++ j :: rest.
Proof.
  intros Hj. exists (map Z.of_nat (seq (S (Z.to_nat j)) (Z.to_nat n - S (Z.to_nat j)))).
  rewrite (range_split n (Z.to_nat j)) by lia.
  now rewrite Z2Nat.id by lia.
Qed.

Lemma run_first_failing_X (fs : string -> option (ImageFile Number))
    (file : string) (f : ImageFile Number) (nrTiles j : Z) (e : Exception) :
  fs file = Some f ->
  0 <= j < effective_count f nrTiles ->
  (forall i, 0 <= i < j ->
             exists x, positionX_value (fileImages f) i = inr x) ->
  positionX_value (fileImages f) j = inl e ->
  run str fs file nrTiles =
  (inl e,
   record_calls (map (fun i => CallGetPlanePositionX i 0) (range (j + 1)))
     (parsed fs file f)).
Proof.
  intros Hf Hj Hbefore Hfail.
  rewrite (run_opens fs file f nrTiles Hf), log_positions_spec.
  cbn [omeMeta parsed].
  destruct (range_around _ j Hj) as [rest ->].
  rewrite (attempt_first_failure _ _ rest j e); auto.
  - now rewrite range_succ by lia.
  - intros i Hi. apply Hbefore. now apply in_range.
Qed.

Lemma run_first_failing_Y (fs : string -> option (ImageFile Number))
    (file : string) (f : ImageFile Number) (nrTiles j : Z) (e : Exception) :
  fs file = Some f ->
  0 <= j < effective_count f nrTiles ->
  (forall i, 0 <= i < effective_count f nrTiles ->
             exists x, positionX_value (fileImages f) i = inr x) ->
  (forall i, 0 <= i < j ->
             exists y, positionY_value (fileImages f) i = inr y) ->
  positionY_value (fileImages f) j = inl e ->
  run str fs file nrTiles =
  (inl e,
   record_calls
     (map (fun i => CallGetPlanePositionX i 0)
        (range (effective_count f nrTiles)) ++
      map (fun i => CallGetPlanePositionY i 0) (range (j + 1)))
     (parsed fs file f)).
Proof.
  intros Hf Hj HX Hbefore Hfail.
  rewrite (run_opens fs file f nrTiles Hf), log_positions_spec.
  cbn [omeMeta parsed].
  destruct (Forall2_of_readable (positionX_value (fileImages f))
              (range (effective_count f nrTiles))) as [xs FX].
  { intros i Hi. apply HX. now apply in_range. }
  rewrite (attempt_all _ _ _ FX).
  destruct (range_around _ j Hj) as [rest Hr].
  rewrite Hr at 1.
  rewrite (attempt_first_failure _ _ rest j e); auto.
  - now rewrite range_succ by lia.
  - intros i Hi. apply Hbefore. now apply in_range.
Qed.

(** X1. On a file that opens, when the X position of series [j], inside the
    range of [seriesCount], is the first one the store cannot give, the
    script ends with the error of that read: it has read the X positions of
    the series [0 .. j] and nothing else, and it has logged nothing. *)
Theorem first_failing_X_read_ends_the_script
    (fs : string -> option (ImageFile Number)) (file : string)
    (f : ImageFile Number) (nrTiles j : Z) (e : Exception) :
  fs file = Some f ->
  0 <= j < effective_count f nrTiles ->
  (forall i, 0 <= i < j ->
             exists x, positionX_value (fileImages f) i = inr x) ->
  positionX_value (fileImages f) j = inl e ->
  fst (run str fs file nrTiles) = inl e /\
  log_window (snd (run str fs file nrTiles)) = [] /\
  trace (snd (run str fs file nrTiles)) =
    parse_calls file ++
    map (fun i => CallGetPlanePositionX i 0) (range (j + 1)).
Proof.
  intros Hf Hj Hbefore Hfail.
  rewrite (run_first_failing_X fs file f nrTiles j e Hf Hj Hbefore Hfail).
  repeat split.
Qed.

(** X2. On a file that opens, when every X position in the range of
    [seriesCount] can be read and the Y position of series [j] is the first
    one the store cannot give, the script ends with the error of that read,
    after all the X reads and the Y reads of the series [0 .. j]; it has
    logged nothing. *)
Theorem first_failing_Y_read_ends_the_script
    (fs : string -> option (ImageFile Number)) (file : string)
    (f : ImageFile Number) (nrTiles j : Z) (e : Exception) :
  fs file = Some f ->
  0 <= j < effective_count f nrTiles ->
  (forall i, 0 <= i < effective_count f nrTiles ->
             exists x, positionX_value (fileImages f) i = inr x) ->
  (forall i, 0 <= i < j ->
             exists y, positionY_value (fileImages f) i = inr y) ->
  positionY_value (fileImages f) j = inl e ->
  fst (run str fs file nrTiles) = inl e /\
  log_window (snd (run str fs file nrTiles)) = [] /\
  trace (snd (run str fs file nrTiles)) =
    parse_calls file ++
    map (fun i => CallGetPlanePositionX i 0)
      (range (effective_count f nrTiles)) ++
    map (fun i => CallGetPlanePositionY i 0) (range (j + 1)).
Proof.
  intros Hf Hj HX Hbefore Hfail.
  rewrite (run_first_failing_Y fs file f nrTiles j e Hf Hj HX Hbefore Hfail).
  repeat split.
Qed.

(** ** Defects of the store *)

Lemma first_positions_nth (store : list (Image Number)) (k : nat)
    (ps : list (Number * Number)) (j : nat) (p : Number * Number) :
  positions (firstn k store) = Some ps ->
  nth_error ps j = Some p ->
  exists img, nth_error store j = Some img /\ plane0_position img = Some p.
Proof.
  intros Hps Hp.
  destruct (positions_nth _ _ Hps) as [_ Hnth].
  destruct (Hnth j p Hp) as (img & Himg & H0).
  rewrite nth_error_firstn in Himg.
  destruct (j <? k)%nat; [|discriminate].
  now exists img.
Qed.

Lemma first_positions_readable (store : list (Image Number)) (k : nat)
    (ps : list (Number * Number)) (i : Z) :
  positions (firstn k store) = Some ps ->
  0 <= i < Z.of_nat (length ps) ->
  exists p,
    nth_error ps (Z.to_nat i) = Some p /\
    positionX_value store i = inr (fst p) /\
    positionY_value store i = inr (snd p).
Proof.
  intros Hps Hi.
  destruct (nth_error ps (Z.to_nat i)) as [p|] eqn:Hp;
    [|apply nth_error_None in Hp; lia].
  destruct (first_positions_nth store k ps _ p Hps Hp) as (img & Himg & H0).
  exists p. split; [reflexivity|].
  rewrite <- (Z2Nat.id i) at 1 2 by lia.
  apply (position_values store _ img p Himg H0).
Qed.

Lemma java_get_inl {A : Type} (l : list A) (i : Z) (e : Exception) :
  java_get l i = inl e ->
  e = IndexOutOfBoundsException i (Z.of_nat (length l)).
Proof.
  unfold java_get.
  destruct ((i <? 0) || (Z.of_nat (length l) <=? i)).
  - now intros [= <-].
  - destruct (nth_error l (Z.to_nat i)); [discriminate|]. now intros [= <-].
Qed.

Lemma position_value_error (store : list (Image Number)) (i : Z)
    (e : Exception) :
  positionX_value store i = inl e \/ positionY_value store i = inl e ->
  e = AttributeError \/
  e = IndexOutOfBoundsException i (Z.of_nat (length store)) \/
  e = IndexOutOfBoundsException 0 0.
Proof.
  unfold positionX_value, positionY_value, getPlanePositionX,
    getPlanePositionY.
  destruct (java_get store i) as [e'|img] eqn:Himg.
  - apply java_get_inl in Himg. intros [[= <-]|[= <-]]; auto.
  - destruct (java_get (planes img) 0) as [e'|pl] eqn:Hpl.
    + destruct (planes img) as [|pl rest]; [|discriminate].
      injection Hpl as <-.
      intros [[= <-]|[= <-]]; auto.
    + intros [H|H].
      * destruct (PositionX pl); [discriminate|]. injection H as <-. auto.
      * destruct (PositionY pl); [discriminate|]. injection H as <-. auto.
Qed.

(** X3. On a file that opens, when the first [j] series hold their positions
    and plane 0 of series [j], inside the range of [seriesCount], has no X
    position, the script ends with the [AttributeError] of [.value()] on
    [None], at the X read of series [j], and has logged nothing. *)
Theorem missing_X_position_is_an_AttributeError
    (fs : string -> option (ImageFile Number)) (file : string)
    (f : ImageFile Number) (nrTiles j : Z) (ps : list (Number * Number))
    (img : Image Number) (pl : Plane Number) :
  fs file = Some f ->
  0 <= j < effective_count f nrTiles ->
  positions (firstn (Z.to_nat j) (fileImages f)) = Some ps ->
  nth_error (fileImages f) (Z.to_nat j) = Some img ->
  nth_error (planes img) 0 = Some pl ->
  PositionX pl = None ->
  fst (run str fs file nrTiles) = inl AttributeError /\
  log_window (snd (run str fs file nrTiles)) = [] /\
  trace (snd (run str fs file nrTiles)) =
    parse_calls file ++
    map (fun i => CallGetPlanePositionX i 0) (range (j + 1)).
Proof.
  intros Hf Hj Hps Himg Hpl HX.
  assert (Hlen : length ps = Z.to_nat j).
  { destruct (positions_nth _ _ Hps) as [-> _].
    rewrite length_firstn.
    assert (Z.to_nat j < length (fileImages f))%nat
      by (apply nth_error_Some; congruence).
    lia. }
  rewrite (run_first_failing_X fs file f nrTiles j AttributeError Hf Hj).
  - repeat split.
  - intros i Hi.
    destruct (first_positions_readable _ _ ps i Hps) as (p & _ & Hx & _);
      [lia|]. now exists (fst p).
  - unfold positionX_value, getPlanePositionX.
    rewrite <- (Z2Nat.id j) at 1 by lia.
    rewrite (java_get_nth _ _ img Himg).
    change 0 with (Z.of_nat 0).
    now rewrite (java_get_nth _ _ pl Hpl), HX.
Qed.

(** X4. On a file that opens, when the first [j] series hold their positions
    and series [j], inside the range of [seriesCount], has no plane at all,
    the script ends with the index-out-of-range error of the plane list
    (index 0, size 0), at the X read of series [j], and has logged
    nothing. *)
Theorem series_without_planes_is_out_of_range
    (fs : string -> option (ImageFile Number)) (file : string)
    (f : ImageFile Number) (nrTiles j : Z) (ps : list (Number * Number))
    (img : Image Number) :
  fs file = Some f ->
  0 <= j < effective_count f nrTiles ->
  positions (firstn (Z.to_nat j) (fileImages f)) = Some ps ->
  nth_error (fileImages f) (Z.to_nat j) = Some img ->
  planes img = [] ->
  fst (run str fs file nrTiles) = inl (IndexOutOfBoundsException 0 0) /\
  log_window (snd (run str fs file nrTiles)) = [] /\
  trace (snd (run str fs file nrTiles)) =
    parse_calls file ++
    map (fun i => CallGetPlanePositionX i 0) (range (j + 1)).
Proof.
  intros Hf Hj Hps Himg Hpl.
  assert (Hlen : length ps = Z.to_nat j).
  { destruct (positions_nth _ _ Hps) as [-> _].
    rewrite length_firstn.
    assert (Z.to_nat j < length (fileImages f))%nat
      by (apply nth_error_Some; congruence).
    lia. }
  rewrite (run_first_failing_X fs file f nrTiles j
             (IndexOutOfBoundsException 0 0) Hf Hj).
  - repeat split.
  - intros i Hi.
    destruct (first_positions_readable _ _ ps i Hps) as (p & _ & Hx & _);
      [lia|]. now exists (fst p).
  - unfold positionX_value, getPlanePositionX.
    rewrite <- (Z2Nat.id j) at 1 by lia.
    rewrite (java_get_nth _ _ img Himg). now rewrite Hpl.
Qed.

(** X5. The script ends with one of three errors only.  When the reader
    cannot open the path, it is the error of [reader.setId]; when the file
    opens, it is the [AttributeError] of [.value()] on a missing position or
    an index-out-of-range error of the store.  The subscripts of the logging
    loop never fail, and the reader is never used without a current file. *)
Theorem errors_of_the_script
    (fs : string -> option (ImageFile Number)) (file : string)
    (nrTiles : Z) (e : Exception) :
  fst (run str fs file nrTiles) = inl e ->
  (fs file = None /\ e = IOException file) \/
  (fs file <> None /\
   (e = AttributeError \/
    exists index size, e = IndexOutOfBoundsException index size)).
Proof.
  destruct (fs file) as [f|] eqn:Hf.
  - rewrite (run_opens fs file f nrTiles Hf), log_positions_spec.
    cbn [omeMeta parsed]. intros He. right. split; [discriminate|].
    assert (Hread : exists i,
               positionX_value (fileImages f) i = inl e \/
               positionY_value (fileImages f) i = inl e).
    { destruct (attempt (positionX_value (fileImages f))
                  (range (effective_count f nrTiles)))
        as [[e'|xs] doneX] eqn:HX.
      - injection He as ->.
        destruct (attempt_inl _ _ e (f_equal fst HX)) as (_ & i & _ & Hi).
        exists i. now left.
      - destruct (attempt (positionY_value (fileImages f))
                    (range (effective_count f nrTiles)))
          as [[e'|ys] doneY] eqn:HY; [|discriminate].
        injection He as ->.
        destruct (attempt_inl _ _ e (f_equal fst HY)) as (_ & i & _ & Hi).
        exists i. now right. }
    destruct Hread as [i Hi].
    destruct (position_value_error _ i e Hi) as [->|[->| ->]]; eauto.
  - rewrite (run_fails_to_open fs file nrTiles Hf). intros [= <-].
    left. now split.
Qed.

(** ** Normal ends *)

Lemma plane_0_readable (store : list (Image Number)) (i : Z)
    (img : Image Number) (pl : Plane Number) :
  0 <= i ->
  nth_error store (Z.to_nat i) = Some img ->
  nth_error (planes img) 0 = Some pl ->
  (forall lx, PositionX pl = Some lx ->
              positionX_value store i = inr (value lx)) /\
  (forall ly, PositionY pl = Some ly ->
              positionY_value store i = inr (value ly)).
Proof.
  intros Hi Himg Hpl.
  unfold positionX_value, positionY_value, getPlanePositionX,
    getPlanePositionY.
  pose proof (java_get_nth _ _ img Himg) as Gimg.
  rewrite Z2Nat.id in Gimg by lia. rewrite Gimg.
  change 0 with (Z.of_nat 0).
  rewrite (java_get_nth _ _ pl Hpl).
  split; intros l ->; reflexivity.
Qed.

Lemma run_of_readable (fs : string -> option (ImageFile Number))
    (file : string) (f : ImageFile Number) (nrTiles : Z)
    (xs ys : list Number) :
  fs file = Some f ->
  Forall2 (fun i x => positionX_value (fileImages f) i = inr x)
    (range (effective_count f nrTiles)) xs ->
  Forall2 (fun i y => positionY_value (fileImages f) i = inr y)
    (range (effective_count f nrTiles)) ys ->
  run str fs file nrTiles =
  (inr tt,
   logged (position_lines str (combine xs ys))
     (record_calls
        (map (fun i => CallGetPlanePositionX i 0)
           (range (effective_count f nrTiles)) ++
         map (fun i => CallGetPlanePositionY i 0)
           (range (effective_count f nrTiles)))
        (parsed fs file f))).
Proof.
  intros Hf FX FY.
  rewrite (run_opens fs file f nrTiles Hf), log_positions_spec.
  cbn [omeMeta parsed].
  now rewrite (attempt_all _ _ _ FX), (attempt_all _ _ _ FY).
Qed.

Lemma normal_end_inv (fs : string -> option (ImageFile Number))
    (file : string) (f : ImageFile Number) (nrTiles : Z) :
  fs file = Some f ->
  fst (run str fs file nrTiles) = inr tt ->
  exists xs ys,
    Forall2 (fun i x => positionX_value (fileImages f) i = inr x)
      (range (effective_count f nrTiles)) xs /\
    Forall2 (fun i y => positionY_value (fileImages f) i = inr y)
      (range (effective_count f nrTiles)) ys.
Proof.
  intros Hf. rewrite (run_opens fs file f nrTiles Hf), log_positions_spec.
  cbn [omeMeta parsed].
  destruct (attempt (positionX_value (fileImages f))
              (range (effective_count f nrTiles)))
    as [[e|xs] doneX] eqn:HX; [discriminate|].
  destruct (attempt (positionY_value (fileImages f))
              (range (effective_count f nrTiles)))
    as [[e|ys] doneY] eqn:HY; [discriminate|].
  intros _. exists xs, ys. split.
  - apply (attempt_inr _ _ xs (f_equal fst HX)).
  - apply (attempt_inr _ _ ys (f_equal fst HY)).
Qed.

(** X6. On a file that opens, the script ends normally exactly when, for
    every series index in the range of [seriesCount], the store has that
    series, the series has a plane 0, and plane 0 records both an X and a Y
    position. *)
Theorem normal_end_iff_positions_recorded
    (fs : string -> option (ImageFile Number)) (file : string)
    (f : ImageFile Number) (nrTiles : Z) :
  fs file = Some f ->
  fst (run str fs file nrTiles) = inr tt <->
  forall i,
    0 <= i < effective_count f nrTiles ->
    exists img pl lx ly,
      nth_error (fileImages f) (Z.to_nat i) = Some img /\
      nth_error (planes img) 0 = Some pl /\
      PositionX pl = Some lx /\
      PositionY pl = Some ly.
Proof.
  intros Hf. split.
  - intros Hok i Hi.
    destruct (normal_end_inv fs file f nrTiles Hf Hok) as (xs & ys & FX & FY).
    assert (Hr : nth_error (range (effective_count f nrTiles)) (Z.to_nat i)
                 = Some i).
    { rewrite nth_error_range by lia. f_equal. lia. }
    destruct (Forall2_nth_left _ _ _ _ _ FX Hr) as (x & _ & Vx).
    destruct (Forall2_nth_left _ _ _ _ _ FY Hr) as (y & _ & Vy).
    destruct (position_value_inv (fileImages f) i) as [IX IY].
    destruct (IX x Vx) as (img & pl & lx & Himg & Hpl & HPX & _).
    destruct (IY y Vy) as (img' & pl' & ly & Himg' & Hpl' & HPY & _).
    assert (img' = img) by congruence; subst img'.
    assert (pl' = pl) by congruence; subst pl'.
    now exists img, pl, lx, ly.
  - intros Hall.
    destruct (Forall2_of_readable (positionX_value (fileImages f))
                (range (effective_count f nrTiles))) as [xs FX].
    { intros i Hi. apply in_range in Hi.
      destruct (Hall i Hi) as (img & pl & lx & ly & Himg & Hpl & HX & _).
      exists (value lx).
      apply (proj1 (plane_0_readable _ i img pl (proj1 Hi) Himg Hpl) lx HX). }
    destruct (Forall2_of_readable (positionY_value (fileImages f))
                (range (effective_count f nrTiles))) as [ys FY].
    { intros i Hi. apply in_range in Hi.
      destruct (Hall i Hi) as (img & pl & lx & ly & Himg & Hpl & _ & HY).
      exists (value ly).
      apply (proj2 (plane_0_readable _ i img pl (proj1 Hi) Himg Hpl) ly HY). }
    now rewrite (run_of_readable fs file f nrTiles xs ys Hf FX FY).
Qed.

(** X7. Whenever the script ends normally, on any file and with any
    [nrTiles], its calls are those that open and close the reader, then the
    X reads of the series [0 .. seriesCount-1] in ascending order, then the Y
    reads of the same series, then the logged lines; it has logged twice as
    many lines as the range of [seriesCount] has indices. *)
Theorem calls_of_a_normal_end
    (fs : string -> option (ImageFile Number)) (file : string)
    (f : ImageFile Number) (nrTiles : Z) :
  fs file = Some f ->
  fst (run str fs file nrTiles) = inr tt ->
  trace (snd (run str fs file nrTiles)) =
    parse_calls file ++
    map (fun i => CallGetPlanePositionX i 0)
      (range (effective_count f nrTiles)) ++
    map (fun i => CallGetPlanePositionY i 0)
      (range (effective_count f nrTiles)) ++
    map CallLog (log_window (snd (run str fs file nrTiles))) /\
  Z.of_nat (length (log_window (snd (run str fs file nrTiles)))) =
    2 * Z.max 0 (effective_count f nrTiles).
Proof.
  intros Hf Hok.
  destruct (normal_end_inv fs file f nrTiles Hf Hok) as (xs & ys & FX & FY).
  rewrite (run_of_readable fs file f nrTiles xs ys Hf FX FY).
  cbn [fst snd log_window trace logged record_calls parsed app].
  split.
  - now rewrite <- !app_assoc.
  - apply Forall2_same_length in FX, FY. rewrite length_range in FX, FY.
    rewrite length_position_lines, length_combine. lia.
Qed.

(** ** What the override leaves out *)

Lemma position_lines_firstn (ps : list (Number * Number)) (k : nat) :
  position_lines str (firstn k ps) = firstn (2 * k) (position_lines str ps).
Proof.
  revert ps; induction k as [|k IH]; intros ps; [reflexivity|].
  replace (2 * S k)%nat with (S (S (2 * k)))%nat by lia.
  destruct ps as [|p ps]; [reflexivity|].
  simpl. fold (position_lines str (firstn k ps)).
  fold (position_lines str ps). now rewrite IH.
Qed.

Lemma run_on_empty_range (fs : string -> option (ImageFile Number))
    (file : string) (f : ImageFile Number) (nrTiles : Z) :
  fs file = Some f ->
  effective_count f nrTiles <= 0 ->
  run str fs file nrTiles = (inr tt, parsed fs file f).
Proof.
  intros Hf Hn.
  rewrite (run_opens fs file f nrTiles Hf), log_positions_spec.
  assert (Hr : range (effective_count f nrTiles) = []).
  { unfold range.
    now replace (Z.to_nat (effective_count f nrTiles)) with 0%nat by lia. }
  rewrite Hr. cbn [attempt map app combine].
  now rewrite logged_nil, record_calls_nil.
Qed.

(** X8. On a file that opens, the script called with [nrTiles = k], where
    [k] is at most the number of images of the store, needs positions in the
    first [k] series only: it ends normally, logs their positions and reads
    no other series, whatever the later series hold. *)
Theorem override_leaves_later_series_alone
    (fs : string -> option (ImageFile Number)) (file : string)
    (f : ImageFile Number) (ps : list (Number * Number)) (k : Z) :
  fs file = Some f ->
  0 <= k <= Z.of_nat (length (fileImages f)) ->
  positions (firstn (Z.to_nat k) (fileImages f)) = Some ps ->
  fst (run str fs file k) = inr tt /\
  log_window (snd (run str fs file k)) =
    flat_map (fun p => [str (fst p); str (snd p)]) ps /\
  filter is_position_read (trace (snd (run str fs file k))) =
    map (fun i => CallGetPlanePositionX i 0) (range k) ++
    map (fun i => CallGetPlanePositionY i 0) (range k).
Proof.
  intros Hf Hk Hps.
  assert (Hlen : length ps = Z.to_nat k).
  { destruct (positions_nth _ _ Hps) as [-> _]. rewrite length_firstn. lia. }
  assert (Hn : effective_count f k = k).
  { unfold effective_count.
    now replace (k =? -1) with false by (symmetry; apply Z.eqb_neq; lia). }
  assert (FX : Forall2 (fun i x => positionX_value (fileImages f) i = inr x)
                 (range k) (map fst ps)).
  { unfold range. rewrite <- Hlen, <- (length_map fst).
    apply Forall2_range. intros j x Hj. simpl.
    rewrite nth_error_map in Hj.
    destruct (nth_error ps j) as [p|] eqn:Hp; [|discriminate].
    injection Hj as <-.
    destruct (first_positions_nth _ _ ps j p Hps Hp) as (img & Himg & H0).
    apply (position_values _ j img p Himg H0). }
  assert (FY : Forall2 (fun i y => positionY_value (fileImages f) i = inr y)
                 (range k) (map snd ps)).
  { unfold range. rewrite <- Hlen, <- (length_map snd).
    apply Forall2_range. intros j y Hj. simpl.
    rewrite nth_error_map in Hj.
    destruct (nth_error ps j) as [p|] eqn:Hp; [|discriminate].
    injection Hj as <-.
    destruct (first_positions_nth _ _ ps j p Hps Hp) as (img & Himg & H0).
    apply (position_values _ j img p Himg H0). }
  rewrite <- Hn in FX, FY.
  rewrite (run_of_readable fs file f k _ _ Hf FX FY), Hn, combine_fst_snd.
  cbn [fst snd log_window trace logged record_calls parsed app].
  repeat split.
  rewrite !filter_app, filter_reads_of_logs, app_nil_r.
  now rewrite !filter_reads_of_reads by reflexivity.
Qed.

(** X9. On a file with [N] series that hold positions, the log of the script
    called with [nrTiles = k], [0 <= k <= N], is the first [2k] lines of the
    log of the script called with [nrTiles = -1]. *)
Theorem override_log_is_a_prefix_of_the_full_log
    (fs : string -> option (ImageFile Number)) (file : string)
    (f : ImageFile Number) (ps : list (Number * Number)) (k : Z) :
  fs file = Some f ->
  series_positions f = Some ps ->
  0 <= k <= Z.of_nat (length ps) ->
  log_window (snd (run str fs file k)) =
  firstn (2 * Z.to_nat k) (log_window (snd (run str fs file (-1)))).
Proof.
  intros Hf Hps Hk.
  destruct (series_positions_inv f ps Hps) as (_ & Hcount & _).
  assert (Hn : effective_count f k = Z.of_nat (Z.to_nat k)).
  { unfold effective_count.
    replace (k =? -1) with false by (symmetry; apply Z.eqb_neq; lia).
    lia. }
  rewrite (run_on_first_tiles fs file f ps k (Z.to_nat k) Hf Hps Hn)
    by lia.
  rewrite (run_on_first_tiles fs file f ps (-1) (length ps) Hf Hps Hcount
             (le_n _)).
  cbn [fst snd log_window trace logged record_calls parsed app].
  now rewrite firstn_all, position_lines_firstn.
Qed.


(** X11. Two files with the same number of series and the same positions on
    plane 0 end the script the same way and give the same log, for every
    [nrTiles]: the units of the positions, the other planes and the file
    names play no part. *)
Theorem log_depends_on_plane_0_values_only
    (fs1 fs2 : string -> option (ImageFile Number)) (file1 file2 : string)
    (f1 f2 : ImageFile Number) (ps : list (Number * Number)) (nrTiles : Z) :
  fs1 file1 = Some f1 ->
  fs2 file2 = Some f2 ->
  series_positions f1 = Some ps ->
  series_positions f2 = Some ps ->
  fst (run str fs1 file1 nrTiles) = fst (run str fs2 file2 nrTiles) /\
  log_window (snd (run str fs1 file1 nrTiles)) =
  log_window (snd (run str fs2 file2 nrTiles)).
Proof.
  intros H1 H2 P1 P2.
  destruct (series_positions_inv f1 ps P1) as (_ & C1 & _).
  destruct (series_positions_inv f2 ps P2) as (_ & C2 & _).
  destruct (Z.eq_dec nrTiles (-1)) as [->|Hne].
  - rewrite (run_on_first_tiles fs1 file1 f1 ps (-1) (length ps) H1 P1 C1
               (le_n _)).
    rewrite (run_on_first_tiles fs2 file2 f2 ps (-1) (length ps) H2 P2 C2
               (le_n _)).
    split; reflexivity.
  - assert (E1 : effective_count f1 nrTiles = nrTiles).
    { unfold effective_count.
      now replace (nrTiles =? -1) with false
        by (symmetry; apply Z.eqb_neq; lia). }
    assert (E2 : effective_count f2 nrTiles = nrTiles).
    { unfold effective_count.
      now replace (nrTiles =? -1) with false
        by (symmetry; apply Z.eqb_neq; lia). }
    destruct (Z_le_gt_dec nrTiles 0) as [Hneg|Hpos].
    + rewrite (run_on_empty_range fs1 file1 f1 nrTiles H1) by lia.
      rewrite (run_on_empty_range fs2 file2 f2 nrTiles H2) by lia.
      split; reflexivity.
    + destruct (Z_le_gt_dec nrTiles (Z.of_nat (length ps))) as [Hin|Hout].
      * rewrite (run_on_first_tiles fs1 file1 f1 ps nrTiles
                   (Z.to_nat nrTiles) H1 P1) by lia.
        rewrite (run_on_first_tiles fs2 file2 f2 ps nrTiles
                   (Z.to_nat nrTiles) H2 P2) by lia.
        split; reflexivity.
      * rewrite (read_beyond_positions fs1 file1 f1 ps nrTiles H1 P1) by lia.
        rewrite (read_beyond_positions fs2 file2 f2 ps nrTiles H2 P2) by lia.
        split; reflexivity.
Qed.

End Facts.

(** ** The synthetic store *)

(** C8. On a file with three series whose store holds the positions
    (1.0, 2.0), (3.0, 4.0) and (5.0, 6.0), with a [str] that writes these six
    numbers as Python does, the script called with [nrTiles = -1] logs the
    six lines 1.0, 2.0, 3.0, 4.0, 5.0, 6.0, in this order. *)
Theorem three_positions_log_six_lines (str : float -> string)
    (fs : string -> option (ImageFile float)) (file : string)
    (f : ImageFile float) :
  fs file = Some f ->
  series_positions f = Some [(1, 2); (3, 4); (5, 6)]%float ->
  map str [1; 2; 3; 4; 5; 6]%float =
    ["1.0"; "2.0"; "3.0"; "4.0"; "5.0"; "6.0"] ->
  fst (run str fs file (-1)) = inr tt /\
  log_window (snd (run str fs file (-1))) =
    ["1.0"; "2.0"; "3.0"; "4.0"; "5.0"; "6.0"].
Proof.
  intros Hf Hps Hstr.
  destruct (series_positions_inv f _ Hps) as (_ & Hcount & _).
  rewrite (run_on_first_tiles str fs file f _ (-1) 3 Hf Hps Hcount (le_n _)).
  split; [reflexivity | exact Hstr].
Qed.

(** ** Runs on the example files *)

Example run_three_tiles :
  run str_whole disk "tiles.czi" (-1) =
  (inr tt,
   {| files := disk; reader_file := None; store_bound := true;
      omeMeta := fileImages three_tiles;
      trace :=
        [CallOptionsSetId "tiles.czi"; CallSetMetadataStore;
         CallReaderSetId "tiles.czi"; CallGetSeriesCount; CallReaderClose;
         CallGetPlanePositionX 0 0; CallGetPlanePositionX 1 0;
         CallGetPlanePositionX 2 0; CallGetPlanePositionY 0 0;
         CallGetPlanePositionY 1 0; CallGetPlanePositionY 2 0;
         CallLog "1.0"; CallLog "2.0"; CallLog "3.0"; CallLog "4.0";
         CallLog "5.0"; CallLog "6.0"];
      log_window := ["1.0"; "2.0"; "3.0"; "4.0"; "5.0"; "6.0"] |}).
Proof. reflexivity. Qed.

Example run_unpositioned_tile :
  run str_whole disk "bare.czi" (-1) =
  (inl AttributeError,
   {| files := disk; reader_file := None; store_bound := true;
      omeMeta := fileImages unpositioned_tile;
      trace :=
        [CallOptionsSetId "bare.czi"; CallSetMetadataStore;
         CallReaderSetId "bare.czi"; CallGetSeriesCount; CallReaderClose;
         CallGetPlanePositionX 0 0; CallGetPlanePositionX 1 0];
      log_window := [] |}).
Proof. reflexivity. Qed.

Example run_override_beyond_count :
  let out := run str_whole disk "tiles.czi" 5 in
  fst out = inl (IndexOutOfBoundsException 3 3) /\
  log_window (snd out) = [] /\
  last (trace (snd out)) CallReaderClose = CallGetPlanePositionX 3 0.
Proof. repeat split. Qed.

(** ** The properties on the example files *)

Lemma default_count_on_three_tiles :
  disk "tiles.czi" = Some three_tiles /\
  series_positions three_tiles = Some [(1, 2); (3, 4); (5, 6)]%float /\
  length (log_window (snd (run str_whole disk "tiles.czi" (-1)))) = 6%nat /\
  log_window (snd (run str_whole disk "tiles.czi" (-1))) =
    ["1.0"; "2.0"; "3.0"; "4.0"; "5.0"; "6.0"].
Proof.
  pose proof (default_count_logs_every_series str_whole disk "tiles.czi"
                three_tiles _ eq_refl eq_refl) as (_ & Hlen & Hlog & _).
  exact (conj eq_refl (conj eq_refl (conj Hlen Hlog))).
Defined.

Lemma override_is_taken_as_given :
  disk "tiles.czi" = Some three_tiles /\
  fst (parse_metadata "tiles.czi" 7 (initial disk)) = inr 7 /\
  fst (parse_metadata "tiles.czi" (-1) (initial disk)) = inr 3.
Proof.
  split; [reflexivity | split].
  - exact (proj1 (seriesCount_is_count_or_override str_whole disk "tiles.czi"
                    three_tiles 7 eq_refl)).
  - exact (proj1 (seriesCount_is_count_or_override str_whole disk "tiles.czi"
                    three_tiles (-1) eq_refl)).
Defined.

Lemma override_two_on_three_tiles :
  disk "tiles.czi" = Some three_tiles /\
  0 <= 2 <= 3 /\
  log_window (snd (run str_whole disk "tiles.czi" 2)) =
    ["1.0"; "2.0"; "3.0"; "4.0"] /\
  filter is_position_read (trace (snd (run str_whole disk "tiles.czi" 2))) =
    [CallGetPlanePositionX 0 0; CallGetPlanePositionX 1 0;
     CallGetPlanePositionY 0 0; CallGetPlanePositionY 1 0].
Proof.
  pose proof (override_logs_first_series str_whole disk "tiles.czi"
                three_tiles _ 2 eq_refl eq_refl ltac:(simpl; lia))
    as (_ & _ & Hlog & Hreads).
  split; [reflexivity | split; [lia | exact (conj Hlog Hreads)]].
Defined.

Lemma override_four_on_three_tiles :
  disk "tiles.czi" = Some three_tiles /\
  Z.of_nat (length (fileImages three_tiles)) < 4 /\
  fst (run str_whole disk "tiles.czi" 4) =
    inl (IndexOutOfBoundsException 3 3) /\
  log_window (snd (run str_whole disk "tiles.czi" 4)) = [].
Proof.
  pose proof (override_beyond_count_fails str_whole disk "tiles.czi"
                three_tiles 4 eq_refl eq_refl) as (_ & Hlog & Hpos).
  destruct (Hpos _ eq_refl) as [Herr _].
  exact (conj eq_refl (conj eq_refl (conj Herr Hlog))).
Defined.

Lemma second_tile_lines_are_plane_0 :
  exists img pl lx ly,
    nth_error (fileImages three_tiles) 1 = Some img /\
    nth_error (planes img) 0 = Some pl /\
    PositionX pl = Some lx /\
    PositionY pl = Some ly /\
    nth_error (log_window (snd (run str_whole disk "tiles.czi" (-1)))) 2 =
      Some (str_whole (value lx)) /\
    nth_error (log_window (snd (run str_whole disk "tiles.czi" (-1)))) 3 =
      Some (str_whole (value ly)).
Proof.
  exact (proj2 (logged_pair_is_position_of_plane_0 str_whole disk "tiles.czi"
                  three_tiles (-1) 1 eq_refl eq_refl
                  (conj (Z.le_0_1) (eq_refl : (1 ?= 3) = Lt)))).
Defined.

Lemma first_read_comes_after_close :
  In CallReaderClose (parse_calls "tiles.czi") /\
  handle_open (parse_calls "tiles.czi") = false.
Proof.
  exact (reader_closed_before_position_reads str_whole disk "tiles.czi" 1
           (parse_calls "tiles.czi")
           [CallGetPlanePositionY 0 0; CallLog "1.0"; CallLog "2.0"]
           (CallGetPlanePositionX 0 0) eq_refl eq_refl).
Defined.

Lemma missing_file_logs_nothing :
  disk "missing.czi" = None /\
  fst (run str_whole disk "missing.czi" (-1)) =
    inl (IOException "missing.czi") /\
  log_window (snd (run str_whole disk "missing.czi" (-1))) = [].
Proof.
  pose proof (open_failure_logs_nothing str_whole disk "missing.czi" (-1)
                eq_refl) as (Herr & Hlog & _).
  exact (conj eq_refl (conj Herr Hlog)).
Defined.

Lemma three_tiles_log_six_lines :
  disk "tiles.czi" = Some three_tiles /\
  series_positions three_tiles = Some [(1, 2); (3, 4); (5, 6)]%float /\
  map str_whole [1; 2; 3; 4; 5; 6]%float =
    ["1.0"; "2.0"; "3.0"; "4.0"; "5.0"; "6.0"] /\
  log_window (snd (run str_whole disk "tiles.czi" (-1))) =
    ["1.0"; "2.0"; "3.0"; "4.0"; "5.0"; "6.0"].
Proof.
  repeat (split; [reflexivity|]).
  exact (proj2 (three_positions_log_six_lines str_whole disk "tiles.czi"
                  three_tiles eq_refl eq_refl eq_refl)).
Defined.

Lemma unpositioned_tile_logs_nothing :
  fst (run str_whole disk "bare.czi" (-1)) = inl AttributeError /\
  log_window (snd (run str_whole disk "bare.czi" (-1))) = [].
Proof.
  split; [reflexivity|].
  exact (proj1 (failure_logs_nothing str_whole disk "bare.czi" (-1))
           AttributeError eq_refl).
Defined.

Lemma override_minus_five_logs_nothing :
  disk "tiles.czi" = Some three_tiles /\
  -5 < -1 /\
  fst (run str_whole disk "tiles.czi" (-5)) = inr tt /\
  log_window (snd (run str_whole disk "tiles.czi" (-5))) = [].
Proof.
  pose proof (negative_override_logs_nothing str_whole disk "tiles.czi"
                three_tiles (-5) eq_refl ltac:(lia)) as (Hok & Hlog & _).
  split; [reflexivity | split; [lia | exact (conj Hok Hlog)]].
Defined.

(** ** Further properties on the example files *)

Lemma unpositioned_tile_fails_at_its_X_read :
  disk "bare.czi" = Some unpositioned_tile /\
  positionX_value (fileImages unpositioned_tile) 1 = inl AttributeError /\
  fst (run str_whole disk "bare.czi" (-1)) = inl AttributeError /\
  trace (snd (run str_whole disk "bare.czi" (-1))) =
    parse_calls "bare.czi" ++
    [CallGetPlanePositionX 0 0; CallGetPlanePositionX 1 0].
Proof.
  assert (Hbefore : forall i, 0 <= i < 1 ->
            exists x, positionX_value (fileImages unpositioned_tile) i
                      = inr x).
  { intros i Hi. assert (i = 0) as -> by lia. eexists. reflexivity. }
  pose proof (first_failing_X_read_ends_the_script str_whole disk "bare.czi"
                unpositioned_tile (-1) 1 AttributeError eq_refl
                ltac:(unfold effective_count; simpl; lia) Hbefore eq_refl) as (Herr & _ & Htr).
  exact (conj eq_refl (conj eq_refl (conj Herr Htr))).
Defined.

Lemma tile_without_Y_fails_after_the_X_reads :
  archive "noY.czi" = Some tile_without_Y /\
  positionY_value (fileImages tile_without_Y) 1 = inl AttributeError /\
  fst (run str_whole archive "noY.czi" (-1)) = inl AttributeError /\
  log_window (snd (run str_whole archive "noY.czi" (-1))) = [] /\
  trace (snd (run str_whole archive "noY.czi" (-1))) =
    parse_calls "noY.czi" ++
    [CallGetPlanePositionX 0 0; CallGetPlanePositionX 1 0;
     CallGetPlanePositionY 0 0; CallGetPlanePositionY 1 0].
Proof.
  assert (HX : forall i, 0 <= i < effective_count tile_without_Y (-1) ->
            exists x, positionX_value (fileImages tile_without_Y) i = inr x).
  { intros i Hi. unfold effective_count in Hi. simpl in Hi.
    assert (i = 0 \/ i = 1) as [-> | ->] by lia; eexists; reflexivity. }
  assert (HY : forall i, 0 <= i < 1 ->
            exists y, positionY_value (fileImages tile_without_Y) i = inr y).
  { intros i Hi. assert (i = 0) as -> by lia. eexists. reflexivity. }
  pose proof (first_failing_Y_read_ends_the_script str_whole archive "noY.czi"
                tile_without_Y (-1) 1 AttributeError eq_refl
                ltac:(unfold effective_count; simpl; lia) HX HY eq_refl) as (Herr & Hlog & Htr).
  exact (conj eq_refl (conj eq_refl (conj Herr (conj Hlog Htr)))).
Defined.

Lemma unpositioned_tile_raises_AttributeError :
  disk "bare.czi" = Some unpositioned_tile /\
  positions (firstn 1 (fileImages unpositioned_tile)) =
    Some [(1, 2)]%float /\
  fst (run str_whole disk "bare.czi" (-1)) = inl AttributeError /\
  log_window (snd (run str_whole disk "bare.czi" (-1))) = [].
Proof.
  pose proof (missing_X_position_is_an_AttributeError str_whole disk
                "bare.czi" unpositioned_tile (-1) 1 [(1, 2)]%float
                (mkImage [mkPlane None None]) (mkPlane None None)
                eq_refl ltac:(unfold effective_count; simpl; lia) eq_refl eq_refl eq_refl eq_refl)
    as (Herr & Hlog & _).
  exact (conj eq_refl (conj eq_refl (conj Herr Hlog))).
Defined.

Lemma tile_without_planes_is_out_of_range :
  archive "noplanes.czi" = Some tile_without_planes /\
  fst (run str_whole archive "noplanes.czi" (-1)) =
    inl (IndexOutOfBoundsException 0 0) /\
  log_window (snd (run str_whole archive "noplanes.czi" (-1))) = [].
Proof.
  pose proof (series_without_planes_is_out_of_range str_whole archive
                "noplanes.czi" tile_without_planes (-1) 1 [(1, 2)]%float
                (mkImage []) eq_refl ltac:(unfold effective_count; simpl; lia) eq_refl eq_refl
                eq_refl) as (Herr & Hlog & _).
  exact (conj eq_refl (conj Herr Hlog)).
Defined.

Lemma missing_file_error_is_the_open_error :
  fst (run str_whole disk "missing.czi" 2) = inl (IOException "missing.czi")
  /\
  ((disk "missing.czi" = None /\
    IOException "missing.czi" = IOException "missing.czi") \/
   (disk "missing.czi" <> None /\
    (IOException "missing.czi" = AttributeError \/
     exists index size,
       IOException "missing.czi" = IndexOutOfBoundsException index size))).
Proof.
  split; [reflexivity|].
  exact (errors_of_the_script str_whole disk "missing.czi" 2
           (IOException "missing.czi") eq_refl).
Defined.

Lemma two_of_three_tiles_end_normally :
  disk "tiles.czi" = Some three_tiles /\
  (fst (run str_whole disk "tiles.czi" 2) = inr tt <->
   forall i,
     0 <= i < effective_count three_tiles 2 ->
     exists img pl lx ly,
       nth_error (fileImages three_tiles) (Z.to_nat i) = Some img /\
       nth_error (planes img) 0 = Some pl /\
       PositionX pl = Some lx /\
       PositionY pl = Some ly).
Proof.
  split; [reflexivity|].
  exact (normal_end_iff_positions_recorded str_whole disk "tiles.czi"
           three_tiles 2 eq_refl).
Defined.

Lemma calls_of_two_of_three_tiles :
  disk "tiles.czi" = Some three_tiles /\
  fst (run str_whole disk "tiles.czi" 2) = inr tt /\
  Z.of_nat (length (log_window (snd (run str_whole disk "tiles.czi" 2)))) = 4
  /\
  trace (snd (run str_whole disk "tiles.czi" 2)) =
    parse_calls "tiles.czi" ++
    [CallGetPlanePositionX 0 0; CallGetPlanePositionX 1 0;
     CallGetPlanePositionY 0 0; CallGetPlanePositionY 1 0;
     CallLog "1.0"; CallLog "2.0"; CallLog "3.0"; CallLog "4.0"].
Proof.
  pose proof (calls_of_a_normal_end str_whole disk "tiles.czi" three_tiles 2
                eq_refl eq_refl) as (Htr & Hlen).
  exact (conj eq_refl (conj eq_refl (conj Hlen Htr))).
Defined.

Lemma first_tile_of_unpositioned_tile :
  disk "bare.czi" = Some unpositioned_tile /\
  0 <= 1 <= Z.of_nat (length (fileImages unpositioned_tile)) /\
  positions (firstn 1 (fileImages unpositioned_tile)) =
    Some [(1, 2)]%float /\
  positions (fileImages unpositioned_tile) = None /\
  fst (run str_whole disk "bare.czi" 1) = inr tt /\
  log_window (snd (run str_whole disk "bare.czi" 1)) = ["1.0"; "2.0"].
Proof.
  pose proof (override_leaves_later_series_alone str_whole disk "bare.czi"
                unpositioned_tile [(1, 2)]%float 1 eq_refl
                ltac:(unfold effective_count; simpl; lia) eq_refl) as (Hok & Hlog & _).
  split; [reflexivity | split; [simpl; lia|]].
  exact (conj eq_refl (conj eq_refl (conj Hok Hlog))).
Defined.

Lemma one_tile_log_is_a_prefix :
  disk "tiles.czi" = Some three_tiles /\
  log_window (snd (run str_whole disk "tiles.czi" 1)) =
    firstn 2 (log_window (snd (run str_whole disk "tiles.czi" (-1)))) /\
  log_window (snd (run str_whole disk "tiles.czi" 1)) = ["1.0"; "2.0"].
Proof.
  split; [reflexivity | split; [|reflexivity]].
  exact (override_log_is_a_prefix_of_the_full_log str_whole disk "tiles.czi"
           three_tiles [(1, 2); (3, 4); (5, 6)]%float 1 eq_refl eq_refl
           ltac:(unfold effective_count; simpl; lia)).
Defined.

Lemma millimetre_file_logs_the_same :
  archive "mm.czi" = Some three_tiles_mm /\
  three_tiles_mm <> three_tiles /\
  series_positions three_tiles_mm = series_positions three_tiles /\
  log_window (snd (run str_whole archive "mm.czi" 2)) =
  log_window (snd (run str_whole disk "tiles.czi" 2)).
Proof.
  split; [reflexivity | split; [discriminate | split; [reflexivity|]]].
  exact (proj2 (log_depends_on_plane_0_values_only str_whole archive disk
                  "mm.czi" "tiles.czi" three_tiles_mm three_tiles
                  [(1, 2); (3, 4); (5, 6)]%float 2
                  eq_refl eq_refl eq_refl eq_refl)).
Defined.
